(** * Loan application system: the ledger core of [project.py]

    A shallow embedding of the classes [User], [Loan], [Payment] and
    [LoanApplicationSystem] of [src/project.py], and the properties of the
    ledger (balance, status, payment log) that the specification states.

    Conventions of the embedding.
    - Python [float] is IEEE-754 binary64: Rocq's primitive [float], with the
      same operations and comparisons ([nan] compares false with everything).
    - Python [int] is [Z].
    - The PostgreSQL database behind the single [DatabaseConnection] is a
      record of three tables (lists of rows, in insertion order) and the three
      [SERIAL] sequences; a row is a record of the table's columns, an object
      of a class is a record of the class's attributes, and [cls( *row)] goes
      from the first to the second.  The connection is in autocommit mode, so
      every [cursor.execute] is one committed step on that record.
    - A table keeps the values the statement hands to it.  What the database
      engine does to a value on its way into a column ([DECIMAL(10, 2)]
      rounds to two digits and refuses what does not fit) is not part of the
      embedding: a balance here is the float the Python code computed.
    - A method that mutates [self] and the database returns the new [self] and
      the new database.
    - [input()] followed by [int(...)] or [float(...)] is an [option]: [None]
      when the conversion raises [ValueError].  [datetime.now()] and the
      outcomes of the [bcrypt] calls are arguments. *)

From Stdlib Require Import ZArith List String Ascii Bool Lia Floats.
From Stdlib Require Uint63.
From Stdlib Require Import Sorting.Permutation Sorting.Sorted.
Import ListNotations.

Set Warnings "-inexact-float".
Local Open Scope string_scope.
Local Open Scope Z_scope.

(** ** Python numbers *)

Module Py.

Inductive exn := ValueError | ZeroDivisionError | OverflowError.

(** An integer as an exact (not normalised) binary value [m * 2^0]. *)
Definition Z2SF (z : Z) : spec_float :=
  match z with
  | Z0 => S754_zero false
  | Zpos p => S754_finite false p 0
  | Zneg p => S754_finite true p 0
  end.

(** [a / b] on two [int]s: the quotient correctly rounded to binary64
    (round to nearest, ties to even), [ZeroDivisionError] for [b = 0] and
    [OverflowError] when the rounded quotient is not finite. *)
Definition int_truediv (a b : Z) : exn + float :=
  if b =? 0 then inl ZeroDivisionError
  else match SFdiv prec emax (Z2SF a) (Z2SF b) with
       | S754_infinity _ | S754_nan => inl OverflowError
       | q => inr (SF2Prim q)
       end.

(** [float(n)] for an [int] below [2^63] in absolute value. *)
Definition float_of_int (n : Z) : float :=
match n with
| Z0 => 0%float
| Zpos _ => PrimFloat.of_uint63 (Uint63.of_Z n)
| Zneg p => PrimFloat.opp (PrimFloat.of_uint63 (Uint63.of_Z (Zpos p)))
end.

(** [min(x, y)] on two arguments: [y] replaces [x] only when [y < x]. *)
Definition min (x y : float) : float :=
  if PrimFloat.ltb y x then y else x.

Definition lower_ascii (c : ascii) : ascii :=
  let n := nat_of_ascii c in
  if andb (Nat.leb 65 n) (Nat.leb n 90) then ascii_of_nat (n + 32) else c.

(** [str.lower()], on the ASCII letters. *)
Fixpoint lower (s : string) : string :=
  match s with
  | EmptyString => EmptyString
  | String c s' => String (lower_ascii c) (lower s')
  end.

(** [xs[i]] for an index already checked to be in range. *)
Definition index {A} (xs : list A) (i : Z) : option A :=
  if i <? 0 then None else nth_error xs (Z.to_nat i).

Definition len {A} (xs : list A) : Z := Z.of_nat (List.length xs).

End Py.

(** ** The tables of [_initialize_database] *)

Module Users.
Record row := mk {
  user_id : Z;
  username : string;
  password_hash : string;
  is_admin : bool;
  created_at : Z
}.
End Users.

Module Loans.
Record row := mk {
  loan_id : Z;
  user_id : option Z;
  amount : float;
  term : Z;
  interest_rate : float;
  status : string;
  created_at : Z;
  current_balance : float
}.

Definition with_status (s : string) (r : row) : row :=
  mk (loan_id r) (user_id r) (amount r) (term r) (interest_rate r) s
     (created_at r) (current_balance r).
End Loans.

Module Payments.
Record row := mk {
  payment_id : Z;
  loan_id : option Z;
  amount : float;
  payment_date : Z
}.
End Payments.

Module Db.

Record t := mk {
  users : list Users.row;
  loans : list Loans.row;
  payments : list Payments.row;
  users_seq : Z;
  loans_seq : Z;
  payments_seq : Z
}.

(** The three tables right after their [CREATE TABLE]. *)
Definition empty : t := mk [] [] [] 0 0 0.

Definition with_users (us : list Users.row) (s : Z) (d : t) : t :=
  mk us (loans d) (payments d) s (loans_seq d) (payments_seq d).

Definition with_loans (ls : list Loans.row) (s : Z) (d : t) : t :=
  mk (users d) ls (payments d) (users_seq d) s (payments_seq d).

Definition with_payments (ps : list Payments.row) (s : Z) (d : t) : t :=
  mk (users d) (loans d) ps (users_seq d) (loans_seq d) s.

(** [column = %s] in a [WHERE] or [ON] clause: true only for two equal
    non-NULL values. *)
Definition sql_eq (a b : option Z) : bool :=
  match a, b with
  | Some x, Some y => x =? y
  | _, _ => false
  end.

(** [ORDER BY key DESC]: rows with equal keys keep their table order. *)
Fixpoint insert_desc {A} (key : A -> Z) (x : A) (l : list A) : list A :=
  match l with
  | [] => [x]
  | y :: l' => if key y <=? key x then x :: y :: l'
               else y :: insert_desc key x l'
  end.

Fixpoint order_by_desc {A} (key : A -> Z) (l : list A) : list A :=
  match l with
  | [] => []
  | x :: l' => insert_desc key x (order_by_desc key l')
  end.

(** Two consecutive rows of a result in "most recent first" order. *)
Definition newer_first {A} (key : A -> Z) (a b : A) : Prop := key b <= key a.

(** [UPDATE loans SET ... WHERE loan_id = %s]: every row with that key is
    rewritten. *)
Definition update_loans (i : Z) (f : Loans.row -> Loans.row) (d : t) : t :=
  with_loans
    (map (fun r => if Loans.loan_id r =? i then f r else r) (loans d))
    (loans_seq d) d.

Definition update_payments (i : Z) (f : Payments.row -> Payments.row)
    (d : t) : t :=
  with_payments
    (map (fun r => if Payments.payment_id r =? i then f r else r)
         (payments d))
    (payments_seq d) d.

Definition update_users (i : Z) (f : Users.row -> Users.row) (d : t) : t :=
  with_users
    (map (fun r => if Users.user_id r =? i then f r else r) (users d))
    (users_seq d) d.

(** [l.*, u.username FROM loans l JOIN users u ON l.user_id = u.user_id],
    loan by loan in table order. *)
Definition loans_join_users (d : t) : list (Loans.row * string) :=
  flat_map
    (fun l =>
       map (fun u => (l, Users.username u))
           (filter (fun u => sql_eq (Loans.user_id l)
                                    (Some (Users.user_id u)))
                   (users d)))
    (loans d).

End Db.

(** ** class User *)

Module User.

Record t := mk {
  user_id : option Z;
  username : string;
  password_hash : string;
  is_admin : bool;
  created_at : option Z
}.

(** [cls( *result)] *)
Definition of_row (r : Users.row) : t :=
  mk (Some (Users.user_id r)) (Users.username r) (Users.password_hash r)
     (Users.is_admin r) (Some (Users.created_at r)).

(** [create]: [hash] is what [bcrypt.hashpw] returned for the password. *)
Definition create (username hash : string) (is_admin : bool) : t :=
  mk None username hash is_admin None.

(** [save]: [now] is the [CURRENT_TIMESTAMP] the insert defaults to. *)
Definition save (self : t) (now : Z) (db : Db.t) : t * Db.t :=
  match user_id self with
  | None =>
      let i := Db.users_seq db + 1 in
      (mk (Some i) (username self) (password_hash self) (is_admin self)
          (created_at self),
       Db.with_users
         (Db.users db ++
          [Users.mk i (username self) (password_hash self) (is_admin self)
                    now])
         i db)
  | Some i =>
      (self,
       Db.update_users i
         (fun r => Users.mk (Users.user_id r) (username self)
                            (password_hash self) (is_admin self)
                            (Users.created_at r))
         db)
  end.

Definition get_by_username (db : Db.t) (name : string) : option t :=
  option_map of_row
    (find (fun r => String.eqb (Users.username r) name) (Db.users db)).

Definition get_by_id (db : Db.t) (i : option Z) : option t :=
  option_map of_row
    (find (fun r => Db.sql_eq (Some (Users.user_id r)) i) (Db.users db)).

End User.

(** ** class Payment *)

Module Payment.

Record t := mk {
  payment_id : option Z;
  loan_id : option Z;
  amount : float;
  payment_date : Z
}.

Definition of_row (r : Payments.row) : t :=
  mk (Some (Payments.payment_id r)) (Payments.loan_id r)
     (Payments.amount r) (Payments.payment_date r).

(** [create]: [now] is [datetime.now()]. *)
Definition create (loan_id : option Z) (amount : float) (now : Z) : t :=
  mk None loan_id amount now.

Definition save (self : t) (db : Db.t) : t * Db.t :=
  match payment_id self with
  | None =>
      let i := Db.payments_seq db + 1 in
      (mk (Some i) (loan_id self) (amount self) (payment_date self),
       Db.with_payments
         (Db.payments db ++
          [Payments.mk i (loan_id self) (amount self) (payment_date self)])
         i db)
  | Some i =>
      (self,
       Db.update_payments i
         (fun r => Payments.mk (Payments.payment_id r) (loan_id self)
                               (amount self) (payment_date self))
         db)
  end.

Definition get_loan_payments (db : Db.t) (loan_id : option Z) : list t :=
  map of_row
    (Db.order_by_desc Payments.payment_date
       (filter (fun r => Db.sql_eq (Payments.loan_id r) loan_id)
               (Db.payments db))).

End Payment.

(** ** class Loan *)

Module Loan.

(** [status] is one of ['pending'], ['approved'], ['rejected'], ['paid'],
    kept as the string the code stores. *)
Record t := mk {
  loan_id : option Z;
  user_id : option Z;
  amount : float;
  term : Z;
  interest_rate : float;
  status : string;
  created_at : Z;
  current_balance : float
}.

Definition with_loan_id (i : option Z) (l : t) : t :=
  mk i (user_id l) (amount l) (term l) (interest_rate l) (status l)
     (created_at l) (current_balance l).

Definition with_status (s : string) (l : t) : t :=
  mk (loan_id l) (user_id l) (amount l) (term l) (interest_rate l) s
     (created_at l) (current_balance l).

Definition with_current_balance (b : float) (l : t) : t :=
  mk (loan_id l) (user_id l) (amount l) (term l) (interest_rate l) (status l)
     (created_at l) b.

(** [cls( *row)]; [float(...)] and [int(...)] leave the stored numbers as
    they are. *)
Definition of_row (r : Loans.row) : t :=
  mk (Some (Loans.loan_id r)) (Loans.user_id r) (Loans.amount r)
     (Loans.term r) (Loans.interest_rate r) (Loans.status r)
     (Loans.created_at r) (Loans.current_balance r).

(** The seven columns [save] writes, under the key [i]. *)
Definition to_row (i : Z) (self : t) : Loans.row :=
  Loans.mk i (user_id self) (amount self) (term self) (interest_rate self)
           (status self) (created_at self) (current_balance self).

Definition save (self : t) (db : Db.t) : t * Db.t :=
  match loan_id self with
  | None =>
      let i := Db.loans_seq db + 1 in
      (with_loan_id (Some i) self,
       Db.with_loans (Db.loans db ++ [to_row i self]) i db)
  | Some i =>
      (self, Db.update_loans i (fun _ => to_row i self) db)
  end.

Definition get_by_id (db : Db.t) (i : option Z) : option t :=
  option_map of_row
    (find (fun r => Db.sql_eq (Some (Loans.loan_id r)) i) (Db.loans db)).

Definition get_user_loans (db : Db.t) (user_id : option Z) : list t :=
  map of_row
    (Db.order_by_desc Loans.created_at
       (filter (fun r => Db.sql_eq (Loans.user_id r) user_id)
               (Db.loans db))).

(** [make_payment]: [now] is the [datetime.now()] of [Payment.create]. *)
Definition make_payment (self : t) (db : Db.t) (amount : float) (now : Z)
    : t * Db.t * (bool * string) :=
  if PrimFloat.leb amount 0 then
    (self, db, (false, "Payment amount must be positive"))
  else if PrimFloat.ltb (current_balance self) amount then
    (self, db, (false, "Payment exceeds current balance"))
  else
    let self1 :=
      with_current_balance (PrimFloat.sub (current_balance self) amount)
                           self in
    let '(self2, db1) := save self1 db in
    let '(_, db2) :=
      Payment.save (Payment.create (loan_id self2) amount now) db1 in
    if PrimFloat.eqb (current_balance self2) 0 then
      let '(self3, db3) := save (with_status "paid" self2) db2 in
      (self3, db3, (true, "Payment successful"))
    else
      (self2, db2, (true, "Payment successful")).

End Loan.

(** ** class LoanApplicationSystem *)

Module LoanApplicationSystem.

Record t := mk {
  db : Db.t;
  current_user : option User.t
}.

Definition with_db (d : Db.t) (self : t) : t := mk d (current_user self).

(** What a menu method leaves on the terminal: the line that tells how the
    call ended (listings and echoes of the input are left out), or the
    exception that leaves the method. *)
Inductive reply :=
| Printed (line : string)
| Uncaught (e : Py.exn).

(** [_initialize_database]: [existing] is the database found at start-up,
    [None] when the table [users] is not there yet; then the three tables
    are created and the admin account is inserted. *)
Definition _initialize_database (existing : option Db.t)
    (admin_hash : string) (now : Z) : Db.t :=
  match existing with
  | Some d => d
  | None => snd (User.save (User.create "admin" admin_hash true) now Db.empty)
  end.

Definition __init__ (existing : option Db.t) (admin_hash : string)
    (now : Z) : t :=
  mk (_initialize_database existing admin_hash now) None.

(** [login]: [password_ok] is the outcome of [verify_password]. *)
Definition login (self : t) (username : string) (password_ok : bool)
    : t * bool :=
  match User.get_by_username (db self) username with
  | Some user =>
      if password_ok then (mk (db self) (Some user), true)
      else (self, false)
  | None => (self, false)
  end.

(** [register]: [hash] is what [User.create] computes from the password,
    [now] the timestamp the inserted row defaults to. *)
Definition register (self : t) (username password confirm_password : string)
    (hash : string) (now : Z) : t * bool :=
  match User.get_by_username (db self) username with
  | Some _ => (self, false)
  | None =>
      if negb (String.eqb password confirm_password) then (self, false)
      else
        let '(_, d) := User.save (User.create username hash false) now
                                 (db self) in
        (with_db d self, true)
  end.

Definition apply_for_loan (self : t) (amount_in : option float)
    (term_in : option Z) (now : Z) : t * reply :=
  match current_user self with
  | None => (self, Printed "Please login first.")
  | Some user =>
      match amount_in with
      | None => (self, Printed "Invalid input. Please enter numbers only.")
      | Some amount =>
          match term_in with
          | None =>
              (self, Printed "Invalid input. Please enter numbers only.")
          | Some term =>
              match Py.int_truediv term 12 with
              | inl Py.ValueError =>
                  (self,
                   Printed "Invalid input. Please enter numbers only.")
              | inl e => (self, Uncaught e)
              | inr q =>
                  let interest_rate := Py.min (PrimFloat.add 5 q) 15 in
                  let loan :=
                    Loan.mk None (User.user_id user) amount term
                            interest_rate "pending" now amount in
                  let '(_, d) := Loan.save loan (db self) in
                  (with_db d self,
                   Printed "Loan application submitted successfully!")
              end
          end
      end
  end.

(** [make_payment]: [choice_in] is the number typed at "Select loan to pay",
    [amount_in] the amount typed next (read only when the selected loan is
    approved). *)
Definition make_payment (self : t) (choice_in : option Z)
    (amount_in : option float) (now : Z) : t * reply :=
  match current_user self with
  | None => (self, Printed "Please login first.")
  | Some user =>
      let loans := Loan.get_user_loans (db self) (User.user_id user) in
      match loans with
      | [] => (self, Printed "You have no active loans.")
      | _ =>
          match choice_in with
          | None => (self, Printed "Invalid input. Please enter a number.")
          | Some n =>
              let choice := n - 1 in
              if andb (0 <=? choice) (choice <? Py.len loans) then
                match Py.index loans choice with
                | None => (self, Printed "Invalid selection.")
                | Some loan =>
                    if negb (String.eqb (Loan.status loan) "approved") then
                      (self,
                       Printed "This loan is not approved for payment.")
                    else
                      match amount_in with
                      | None =>
                          (self,
                           Printed "Invalid input. Please enter a number.")
                      | Some amount =>
                          let '(_, d, (_, message)) :=
                            Loan.make_payment loan (db self) amount now in
                          (with_db d self, Printed message)
                      end
                end
              else (self, Printed "Invalid selection.")
          end
      end
  end.

(** The [SELECT] of [approve_loans]: no [ORDER BY], rows in table order. *)
Definition pending_loans (d : Db.t) : list (Loans.row * string) :=
  filter (fun lu => String.eqb (Loans.status (fst lu)) "pending")
         (Db.loans_join_users d).

(** The [SELECT] of [view_all_loans]. *)
Definition all_loans (d : Db.t) : list (Loans.row * string) :=
  Db.order_by_desc (fun lu => Loans.created_at (fst lu))
                   (Db.loans_join_users d).

(** [approve_loans]: [choice_in] is the number typed at "Select loan to
    approve/reject", [action_in] the text typed at "Approve (A) or Reject
    (R)?". *)
Definition approve_loans (self : t) (choice_in : option Z)
    (action_in : string) : t * reply :=
  let pending := pending_loans (db self) in
  match pending with
  | [] => (self, Printed "No pending loans to approve.")
  | _ =>
      match choice_in with
      | None => (self, Printed "Invalid input. Please enter a number.")
      | Some n =>
          let choice := n - 1 in
          if andb (0 <=? choice) (choice <? Py.len pending) then
            match Py.index pending choice with
            | None => (self, Printed "Invalid selection.")
            | Some (row, _) =>
                let loan_id := Loans.loan_id row in
                let action := Py.lower action_in in
                if String.eqb action "a" then
                  (with_db (Db.update_loans loan_id
                              (Loans.with_status "approved") (db self)) self,
                   Printed "Loan approved successfully.")
                else if String.eqb action "r" then
                  (with_db (Db.update_loans loan_id
                              (Loans.with_status "rejected") (db self)) self,
                   Printed "Loan rejected.")
                else (self, Printed "Invalid action.")
            end
          else (self, Printed "Invalid selection.")
      end
  end.


(** One turn of the loop of [run]: the menu entry chosen, with what is
    typed after it.  An entry that the menu shown to the current user does
    not have changes nothing. *)
Inductive command :=
| Login (username : string) (password_ok : bool)
| Register (username password confirm_password hash : string) (now : Z)
| Logout
| ApplyForLoan (amount_in : option float) (term_in : option Z) (now : Z)
| MakePayment (choice_in : option Z) (amount_in : option float) (now : Z)
| ApproveLoans (choice_in : option Z) (action_in : string).

Definition is_admin (self : t) : bool :=
  match current_user self with
  | Some u => User.is_admin u
  | None => false
  end.

Definition run1 (self : t) (c : command) : t :=
  match c, current_user self with
  | Login username ok, None => fst (login self username ok)
  | Register u p p' h now, None => fst (register self u p p' h now)
  | Logout, Some _ => mk (db self) None
  | ApplyForLoan a n now, Some _ => fst (apply_for_loan self a n now)
  | MakePayment c a now, Some _ => fst (make_payment self c a now)
  | ApproveLoans c a, Some _ =>
      if is_admin self then fst (approve_loans self c a) else self
  | _, _ => self
  end.

Definition run (self : t) (cs : list command) : t := fold_left run1 cs self.

End LoanApplicationSystem.

(** ** Two terminals on one database

    [LoanApplicationSystem.make_payment] statement by statement.  Every
    [cursor.execute] commits on its own, and the method waits for the user
    between its [SELECT] and its first [UPDATE]; another terminal's statements
    can run between any two of them. *)

Module Session.

Import LoanApplicationSystem.

(** Where a call of [make_payment] stands. *)
Inductive pc :=
| Start (choice_in : option Z) (amount_in : option float) (now : Z)
    (** nothing executed yet; next: the [SELECT] of [get_user_loans] *)
| Checked (self1 : Loan.t) (amount : float) (now : Z)
    (** the loan is selected and approved, the amount passed both guards,
        the balance is decreased in memory; next: [self.save(db)] *)
| Saved (self2 : Loan.t) (amount : float) (now : Z)
    (** next: the [INSERT] of the payment *)
| Recorded (self2 : Loan.t)
    (** the balance in memory is 0; next: the [UPDATE] that marks it paid *)
| Done (r : reply).

Definition start (user : option User.t) (d : Db.t) (choice_in : option Z)
    (amount_in : option float) (now : Z) : pc :=
  match user with
  | None => Done (Printed "Please login first.")
  | Some user =>
      let loans := Loan.get_user_loans d (User.user_id user) in
      match loans with
      | [] => Done (Printed "You have no active loans.")
      | _ =>
          match choice_in with
          | None => Done (Printed "Invalid input. Please enter a number.")
          | Some n =>
              let choice := n - 1 in
              if andb (0 <=? choice) (choice <? Py.len loans) then
                match Py.index loans choice with
                | None => Done (Printed "Invalid selection.")
                | Some loan =>
                    if negb (String.eqb (Loan.status loan) "approved") then
                      Done (Printed "This loan is not approved for payment.")
                    else
                      match amount_in with
                      | None =>
                          Done
                            (Printed "Invalid input. Please enter a number.")
                      | Some amount =>
                          if PrimFloat.leb amount 0 then
                            Done (Printed "Payment amount must be positive")
                          else if PrimFloat.ltb (Loan.current_balance loan)
                                                amount then
                            Done (Printed "Payment exceeds current balance")
                          else
                            Checked
                              (Loan.with_current_balance
                                 (PrimFloat.sub (Loan.current_balance loan)
                                                amount)
                                 loan)
                              amount now
                      end
                end
              else Done (Printed "Invalid selection.")
          end
      end
  end.

(** One statement of the call. *)
Definition step (user : option User.t) (p : pc) (d : Db.t) : pc * Db.t :=
  match p with
  | Start c a now => (start user d c a now, d)
  | Checked self1 amount now =>
      let '(self2, d1) := Loan.save self1 d in
      (Saved self2 amount now, d1)
  | Saved self2 amount now =>
      let '(_, d2) :=
        Payment.save (Payment.create (Loan.loan_id self2) amount now) d in
      (if PrimFloat.eqb (Loan.current_balance self2) 0
       then Recorded self2
       else Done (Printed "Payment successful"),
       d2)
  | Recorded self2 =>
      let '(_, d3) := Loan.save (Loan.with_status "paid" self2) d in
      (Done (Printed "Payment successful"), d3)
  | Done r => (Done r, d)
  end.

Fixpoint steps (n : nat) (user : option User.t) (p : pc) (d : Db.t)
    : pc * Db.t :=
  match n with
  | O => (p, d)
  | S n' => let '(p', d') := step user p d in steps n' user p' d'
  end.

(** Two calls by the same user, from two terminals. *)
Record config := mkConfig {
  shared : Db.t;
  first : pc;
  second : pc
}.

(** [who = false]: the first terminal executes its next statement;
    [who = true]: the second one does. *)
Definition step2 (user : option User.t) (c : config) (who : bool) : config :=
  if who then
    let '(p, d) := step user (second c) (shared c) in mkConfig d (first c) p
  else
    let '(p, d) := step user (first c) (shared c) in mkConfig d p (second c).

Definition schedule (user : option User.t) (c : config) (whos : list bool)
    : config :=
  fold_left (step2 user) whos c.

Definition succeeded (p : pc) : bool :=
  match p with
  | Done (Printed line) => String.eqb line "Payment successful"
  | _ => false
  end.

Definition finished (p : pc) : bool :=
  match p with
  | Done _ => true
  | _ => false
  end.

End Session.

(** ** The ledger of one loan *)

Module Ledger.

(** The amounts of the payments recorded for loan [i], oldest first. *)
Definition recorded (d : Db.t) (i : Z) : list float :=
  map Payments.amount
      (filter (fun p => Db.sql_eq (Payments.loan_id p) (Some i))
              (Db.payments d)).

(** The balance after paying [amounts] one after the other. *)
Definition balance_after (principal : float) (amounts : list float)
    : float :=
  fold_left PrimFloat.sub amounts principal.

(** Every amount went through the two guards of [Loan.make_payment]. *)
Fixpoint accepted (balance : float) (amounts : list float) : bool :=
  match amounts with
  | [] => true
  | a :: rest =>
      negb (PrimFloat.leb a 0) && negb (PrimFloat.ltb balance a)
      && accepted (PrimFloat.sub balance a) rest
  end.

(** A number that is neither [nan] nor infinite nor negative. *)
Definition finite_nonneg (x : float) : bool :=
  PrimFloat.leb 0 x && PrimFloat.ltb x infinity.

Definition no_nan (amounts : list float) : bool :=
  forallb (fun a => negb (PrimFloat.is_nan a)) amounts.


Definition known_status (s : string) : Prop :=
  s = "pending" \/ s = "approved" \/ s = "rejected" \/ s = "paid".

(** The row of a loan after a payment of [a] was applied to it. *)
Definition paid_down (a : float) (r : Loans.row) : Loans.row :=
  let b := PrimFloat.sub (Loans.current_balance r) a in
  Loans.mk (Loans.loan_id r) (Loans.user_id r) (Loans.amount r)
           (Loans.term r) (Loans.interest_rate r)
           (if PrimFloat.eqb b 0 then "paid" else Loans.status r)
           (Loans.created_at r) b.

Fixpoint nodup (l : list Z) : bool :=
  match l with
  | [] => true
  | x :: l' => negb (existsb (Z.eqb x) l') && nodup l'
  end.

(** Keys are what the sequences handed out: distinct, and not beyond the
    sequence; a payment points to a loan that exists. *)
Definition wf (d : Db.t) : bool :=
  nodup (map Loans.loan_id (Db.loans d))
  && forallb (fun r => Loans.loan_id r <=? Db.loans_seq d) (Db.loans d)
  && nodup (map Users.user_id (Db.users d))
  && forallb (fun r => Users.user_id r <=? Db.users_seq d) (Db.users d)
  && forallb (fun p => match Payments.loan_id p with
                       | Some i => i <=? Db.loans_seq d
                       | None => false
                       end) (Db.payments d).

(** What holds of a loan row and the payments recorded for it. *)
Record loan_ok (d : Db.t) (l : Loans.row) : Prop := {
  ok_balance :
    Loans.current_balance l
    = balance_after (Loans.amount l) (recorded d (Loans.loan_id l));
  ok_accepted :
    accepted (Loans.amount l) (recorded d (Loans.loan_id l)) = true;
  ok_status : known_status (Loans.status l);
  ok_undecided :
    Loans.status l = "pending" \/ Loans.status l = "rejected" ->
    recorded d (Loans.loan_id l) = [];
  ok_paid :
    Loans.status l = "paid" ->
    PrimFloat.eqb (Loans.current_balance l) 0 = true;
  ok_approved :
    Loans.status l = "approved" ->
    recorded d (Loans.loan_id l) = []
    \/ PrimFloat.eqb (Loans.current_balance l) 0 = false;
  ok_rate :
    exists q, Py.int_truediv (Loans.term l) 12 = inr q
              /\ Loans.interest_rate l = Py.min (PrimFloat.add 5 q) 15
}.

Definition invariant (d : Db.t) : Prop :=
  wf d = true /\ forall l, In l (Db.loans d) -> loan_ok d l.

(** The database after the three statements of an accepted payment of [a]
    on the loan of row [r]. *)
Definition pay (a : float) (now : Z) (r : Loans.row) (d : Db.t) : Db.t :=
  Db.mk (Db.users d)
        (map (fun x => if Loans.loan_id x =? Loans.loan_id r
                       then paid_down a r else x)
             (Db.loans d))
        (Db.payments d
         ++ [Payments.mk (Db.payments_seq d + 1) (Some (Loans.loan_id r))
                         a now])
        (Db.users_seq d) (Db.loans_seq d) (Db.payments_seq d + 1).


(** What one menu entry can do to the database. *)
Inductive transition (d : Db.t) : Db.t -> Prop :=
| t_none : transition d d
| t_register (name hash : string) (now : Z) :
    transition d (snd (User.save (User.create name hash false) now d))
| t_apply (uid : option Z) (amount : float) (term : Z) (q : float)
    (now : Z) :
    Py.int_truediv term 12 = inr q ->
    transition d
      (snd (Loan.save
              (Loan.mk None uid amount term (Py.min (PrimFloat.add 5 q) 15)
                       "pending" now amount) d))
| t_decide (r : Loans.row) (s : string) :
    In r (Db.loans d) -> Loans.status r = "pending" ->
    s = "approved" \/ s = "rejected" ->
    transition d (Db.update_loans (Loans.loan_id r) (Loans.with_status s) d)
| t_pay (r : Loans.row) (a : float) (now : Z) :
    In r (Db.loans d) -> Loans.status r = "approved" ->
    PrimFloat.leb a 0 = false ->
    PrimFloat.ltb (Loans.current_balance r) a = false ->
    transition d (pay a now r d).

End Ledger.

(** ** The formulas of the specification *)

Module Spec.





End Spec.


(** ** Concrete runs *)

Module Scenario.

Import LoanApplicationSystem.

(** A fresh installation, started at time 0. *)
Definition fresh : t := __init__ None "h0" 0.

Definition sign_up : list command :=
  [Register "alice" "pw" "pw" "h1" 1; Login "alice" true].

(** Alice registers and asks for [principal] over [term] months; the admin
    approves; Alice logs in again. *)
Definition open_loan (principal : float) (term : Z) : list command :=
  sign_up ++
  [ApplyForLoan (Some principal) (Some term) 2; Logout;
   Login "admin" true; ApproveLoans (Some 1) "A"; Logout;
   Login "alice" true].

(** Alice holds an approved loan of 100.00. *)
Definition alice_100 : t := run fresh (open_loan 100 12).





(** Alice asked for two loans, at times 2 and 3; the admin is logged in. *)
Definition two_pending : t :=
  run fresh (sign_up ++
             [ApplyForLoan (Some 100%float) (Some 24) 2;
              ApplyForLoan (Some 200%float) (Some 144) 3;
              Logout; Login "admin" true]).

(** Alice pays 70.00 on her loan of 100.00 from two terminals at once. *)
Definition two_terminals : Session.config :=
  Session.mkConfig (db alice_100)
                   (Session.Start (Some 1) (Some 70%float) 10)
                   (Session.Start (Some 1) (Some 70%float) 11).

Definition alice : option User.t := current_user alice_100.

Definition balances (d : Db.t) : list float :=
  map Loans.current_balance (Db.loans d).

Definition paid_amounts (d : Db.t) : list float :=
  map Payments.amount (Db.payments d).

(** All schedules of exactly [n] statements. *)
Fixpoint words (n : nat) : list (list bool) :=
  match n with
  | O => [[]]
  | S n' => flat_map (fun w => [false :: w; true :: w]) (words n')
  end.

Definition count (who : bool) (w : list bool) : nat :=
  List.length (filter (Bool.eqb who) w).

(** The schedules in which either terminal executes at most three
    statements: every statement of both calls, in every order. *)
Definition interleavings : list (list bool) :=
  filter (fun w => Nat.leb (count false w) 3 && Nat.leb (count true w) 3)
         (flat_map words (seq 0 7)).

Definition configs : list Session.config :=
  Eval vm_compute in
    map (Session.schedule alice two_terminals) interleavings.

End Scenario.

(** ** Accounts, sessions and the references between the tables *)

Module Accounts.

Import LoanApplicationSystem.

(** The key of whoever is logged in, as the queries of the menus get it. *)
Definition session_id (s : t) : option Z :=
  match current_user s with
  | Some u => User.user_id u
  | None => None
  end.

(** [current_user] is an object loaded from a row that is in the table. *)
Definition session_in_table (s : t) : Prop :=
  match current_user s with
  | Some u => exists r, In r (Db.users (db s)) /\ u = User.of_row r
  | None => True
  end.

(** What the two [REFERENCES] clauses of the tables ask for. *)
Definition references (d : Db.t) : Prop :=
  Forall (fun l => exists u, In u (Db.users d)
                             /\ Loans.user_id l = Some (Users.user_id u))
         (Db.loans d)
  /\ Forall (fun p => exists l, In l (Db.loans d)
                                /\ Payments.loan_id p
                                   = Some (Loans.loan_id l))
            (Db.payments d).

(** The only administrator is the account that [_initialize_database]
    inserts. *)
Definition seeded_admin (d : Db.t) : Prop :=
  Forall (fun u => Users.is_admin u = true -> Users.username u = "admin")
         (Db.users d).

Record invariant (s : t) : Prop := {
  inv_ledger : Ledger.invariant (db s);
  inv_names : NoDup (map Users.username (Db.users (db s)));
  inv_admin : seeded_admin (db s);
  inv_references : references (db s);
  inv_session : session_in_table s
}.

(** The columns of a loan that are written when it is created: its key,
    owner, principal, term, rate and creation time. *)
Definition contract (r : Loans.row)
    : Z * option Z * float * Z * float * Z :=
  (Loans.loan_id r, Loans.user_id r, Loans.amount r, Loans.term r,
   Loans.interest_rate r, Loans.created_at r).

(** What [check_balance] leaves on the terminal: the line that says why
    there is nothing to show, or one line per loan (of which key, principal,
    balance and status are printed). *)
Inductive listing :=
| Nothing (line : string)
| Balances (loans : list Loan.t).

Definition check_balance (self : t) : listing :=
  match current_user self with
  | None => Nothing "Please login first."
  | Some user =>
      match Loan.get_user_loans (db self) (User.user_id user) with
      | [] => Nothing "You have no active loans."
      | loans => Balances loans
      end
  end.

(** What one turn of the loop of [run] can do to the system: the session
    and the database together. *)
Inductive step (s : t) : t -> Prop :=
| s_none : step s s
| s_login (r : Users.row) :
    current_user s = None -> In r (Db.users (db s)) ->
    step s (mk (db s) (Some (User.of_row r)))
| s_logout : step s (mk (db s) None)
| s_register (name hash : string) (now : Z) :
    current_user s = None ->
    User.get_by_username (db s) name = None ->
    step s (with_db (snd (User.save (User.create name hash false) now
                                    (db s))) s)
| s_apply (user : User.t) (amount : float) (term : Z) (q : float)
    (now : Z) :
    current_user s = Some user ->
    Py.int_truediv term 12 = inr q ->
    step s (with_db
              (snd (Loan.save
                      (Loan.mk None (User.user_id user) amount term
                               (Py.min (PrimFloat.add 5 q) 15) "pending"
                               now amount) (db s))) s)
| s_decide (user : User.t) (r : Loans.row) (st : string) :
    current_user s = Some user -> User.is_admin user = true ->
    In r (Db.loans (db s)) -> Loans.status r = "pending" ->
    st = "approved" \/ st = "rejected" ->
    step s (with_db (Db.update_loans (Loans.loan_id r)
                                     (Loans.with_status st) (db s)) s)
| s_pay (user : User.t) (r : Loans.row) (a : float) (now : Z) :
    current_user s = Some user ->
    In r (Db.loans (db s)) ->
    Db.sql_eq (Loans.user_id r) (User.user_id user) = true ->
    Loans.status r = "approved" ->
    PrimFloat.leb a 0 = false ->
    PrimFloat.ltb (Loans.current_balance r) a = false ->
    step s (with_db (Ledger.pay a now r (db s)) s).

End Accounts.

(** ** class DatabaseConnection

    The class keeps one object in its attribute [_instance] and hands the
    same object to every caller.  An object is an address in [heap]; what
    [__new__] returns is the address. *)

Module DatabaseConnection.

(** The arguments of [__new__], handed on to [psycopg2.connect]. *)
Record params := mkParams {
  dbname : string;
  user : string;
  password : string;
  host : string;
  port : string
}.

(** A connection of psycopg2: what it was opened with, and its state. *)
Record psycopg2_connection := mkConnection {
  opened_with : params;
  autocommit : bool;
  closed : bool
}.

(** An object of the class; [connection] is [None] as long as the
    attribute has not been assigned. *)
Record t := mk {
  connection : option psycopg2_connection
}.

Inductive exn := OperationalError | AttributeError.

Record world := mkWorld {
  heap : list t;
  _instance : option nat
}.

(** No object yet. *)
Definition start : world := mkWorld [] None.

Definition store (self : nat) (o : t) (h : list t) : list t :=
  (firstn self h ++ o :: skipn (S self) h)%list.

(** [__new__]: [connected] tells whether [psycopg2.connect], if it is
    called, returns a connection ([true]) or raises [OperationalError]
    ([false]).  The object is created and kept in [_instance] before the
    connection is attempted. *)
Definition __new__ (w : world) (p : params) (connected : bool)
    : world * (exn + nat) :=
  match _instance w with
  | Some self => (w, inr self)
  | None =>
      let self := List.length (heap w) in
      if connected then
        (mkWorld (heap w ++ [mk (Some (mkConnection p true false))])%list
                 (Some self),
         inr self)
      else
        (mkWorld (heap w ++ [mk None])%list (Some self),
         inl OperationalError)
  end.

(** [get_cursor]: the connection that is asked for a cursor (what
    [cursor()] does with it is up to psycopg2). *)
Definition get_cursor (w : world) (self : nat)
    : exn + psycopg2_connection :=
  match nth_error (heap w) self with
  | Some (mk (Some c)) => inr c
  | _ => inl AttributeError
  end.

(** [close]: a connection object is always true in a condition. *)
Definition close (w : world) (self : nat) : world * option exn :=
  match nth_error (heap w) self with
  | Some (mk (Some c)) =>
      (mkWorld
         (store self
                (mk (Some (mkConnection (opened_with c) (autocommit c)
                                        true)))
                (heap w))
         None,
       None)
  | _ => (w, Some AttributeError)
  end.

End DatabaseConnection.

(** * Properties *)

(** ** Lists and tables *)

Section OrderBy.
Context {A : Type} (key : A -> Z).

Lemma insert_desc_perm (x : A) (l : list A) :
  Permutation (x :: l) (Db.insert_desc key x l).
Proof.
  induction l as [|y l IH]; simpl; [reflexivity|].
  destruct (key y <=? key x); [reflexivity|].
  rewrite perm_swap. now constructor.
Qed.

Lemma order_by_desc_perm (l : list A) :
  Permutation l (Db.order_by_desc key l).
Proof.
  induction l as [|x l IH]; simpl; [constructor|].
  rewrite <- insert_desc_perm. now constructor.
Qed.

Lemma in_order_by_desc (x : A) (l : list A) :
  In x (Db.order_by_desc key l) <-> In x l.
Proof.
  split; apply Permutation_in;
    [symmetry|]; apply order_by_desc_perm.
Qed.

Lemma insert_desc_sorted (x : A) (l : list A) :
  StronglySorted (Db.newer_first key) l ->
  StronglySorted (Db.newer_first key) (Db.insert_desc key x l).
Proof.
  induction 1 as [|y l Hs IH Hy]; simpl.
  - repeat constructor.
  - destruct (key y <=? key x) eqn:E.
    + constructor; [now constructor|].
      constructor; [unfold Db.newer_first; lia|].
      rewrite Forall_forall in *. intros z Hz.
      specialize (Hy z Hz). unfold Db.newer_first in *. lia.
    + constructor; [assumption|].
      rewrite Forall_forall in *. intros z Hz.
      apply (Permutation_in _ (Permutation_sym (insert_desc_perm x l))) in Hz.
      destruct Hz as [<-|Hz]; [unfold Db.newer_first; lia|now apply Hy].
Qed.

Lemma order_by_desc_sorted (l : list A) :
  StronglySorted (Db.newer_first key) (Db.order_by_desc key l).
Proof.
  induction l; simpl; [constructor|now apply insert_desc_sorted].
Qed.
End OrderBy.

Lemma index_In {A} (xs : list A) (i : Z) (x : A) :
  Py.index xs i = Some x -> In x xs.
Proof.
  unfold Py.index. destruct (i <? 0); [discriminate|].
  apply nth_error_In.
Qed.

Lemma index_in_range {A} (xs : list A) (i : Z) :
  0 <= i < Py.len xs -> exists x, Py.index xs i = Some x.
Proof.
  unfold Py.index, Py.len. intros [H0 H1].
  destruct (i <? 0) eqn:E; [lia|].
  destruct (nth_error xs (Z.to_nat i)) eqn:N; [eauto|].
  apply nth_error_None in N. lia.
Qed.

Lemma nodup_NoDup (l : list Z) : Ledger.nodup l = true <-> NoDup l.
Proof.
  induction l as [|x l IH]; simpl.
  - split; [constructor|reflexivity].
  - rewrite andb_true_iff, negb_true_iff, IH. split.
    + intros [Hx Hl]. constructor; [|assumption].
      intros Hin. assert (existsb (Z.eqb x) l = true); [|congruence].
      apply existsb_exists. exists x. split; [assumption|apply Z.eqb_refl].
    + inversion 1 as [|? ? Hx Hl]; subst. split; [|assumption].
      destruct (existsb (Z.eqb x) l) eqn:E; [|reflexivity].
      apply existsb_exists in E. destruct E as (y & Hy & Exy).
      apply Z.eqb_eq in Exy. subst. contradiction.
Qed.

Lemma nodup_unique {A} (f : A -> Z) (l : list A) (x y : A) :
  Ledger.nodup (map f l) = true -> In x l -> In y l -> f x = f y -> x = y.
Proof.
  rewrite nodup_NoDup. induction l as [|z l IH]; simpl; [contradiction|].
  inversion 1 as [|? ? Hz Hl]; subst. intros [->|Hx] [->|Hy] E.
  - reflexivity.
  - exfalso. apply Hz. rewrite E. now apply in_map.
  - exfalso. apply Hz. rewrite <- E. now apply in_map.
  - now apply IH.
Qed.

Lemma nodup_snoc (l : list Z) (x : Z) :
  Ledger.nodup l = true -> (forall y, In y l -> y < x) ->
  Ledger.nodup (l ++ [x])%list = true.
Proof.
  rewrite !nodup_NoDup. intros Hl Hx.
  apply NoDup_app; [assumption|repeat constructor; intros []|].
  intros y Hy [<-|[]]. specialize (Hx _ Hy). lia.
Qed.

(** ** What each method does to the database *)

Lemma update_twice (i : Z) (r1 r2 : Loans.row) (l : list Loans.row) :
  Loans.loan_id r1 = i ->
  map (fun x => if Loans.loan_id x =? i then r2 else x)
      (map (fun x => if Loans.loan_id x =? i then r1 else x) l)
  = map (fun x => if Loans.loan_id x =? i then r2 else x) l.
Proof.
  intros E. rewrite map_map. apply map_ext. intros x.
  destruct (Loans.loan_id x =? i) eqn:Ex; [|now rewrite Ex].
  now rewrite E, Z.eqb_refl.
Qed.

Lemma make_payment_of_row (r : Loans.row) (d : Db.t) (a : float) (now : Z) :
  Loan.make_payment (Loan.of_row r) d a now =
  if PrimFloat.leb a 0 then
    (Loan.of_row r, d, (false, "Payment amount must be positive"))
  else if PrimFloat.ltb (Loans.current_balance r) a then
    (Loan.of_row r, d, (false, "Payment exceeds current balance"))
  else
    (Loan.of_row (Ledger.paid_down a r), Ledger.pay a now r d,
     (true, "Payment successful")).
Proof.
  unfold Loan.make_payment. simpl.
  destruct (PrimFloat.leb a 0); [reflexivity|].
  destruct (PrimFloat.ltb (Loans.current_balance r) a); [reflexivity|].
  unfold Ledger.paid_down, Ledger.pay, Ledger.paid_down.
  destruct (PrimFloat.eqb (PrimFloat.sub (Loans.current_balance r) a) 0);
    simpl; [|reflexivity].
  unfold Db.update_loans, Db.with_loans, Db.with_payments. simpl.
  rewrite update_twice by reflexivity. reflexivity.
Qed.

(** The loans a user sees in a menu are rows of the table. *)
Lemma get_user_loans_rows (d : Db.t) (u : option Z) (i : Z) (loan : Loan.t) :
  Py.index (Loan.get_user_loans d u) i = Some loan ->
  exists r, In r (Db.loans d) /\ loan = Loan.of_row r
            /\ Db.sql_eq (Loans.user_id r) u = true.
Proof.
  intros H. apply index_In in H. unfold Loan.get_user_loans in H.
  apply in_map_iff in H. destruct H as (r & <- & H).
  apply in_order_by_desc, filter_In in H. destruct H. eauto.
Qed.

Lemma pending_loans_rows (d : Db.t) (i : Z) (r : Loans.row) (name : string) :
  Py.index (LoanApplicationSystem.pending_loans d) i = Some (r, name) ->
  In r (Db.loans d) /\ Loans.status r = "pending".
Proof.
  intros H. apply index_In in H. unfold LoanApplicationSystem.pending_loans in H.
  apply filter_In in H. destruct H as [H E]. simpl in E.
  apply String.eqb_eq in E. split; [|assumption].
  unfold Db.loans_join_users in H. apply in_flat_map in H.
  destruct H as (l & Hl & H). apply in_map_iff in H.
  destruct H as (u & [= <- _] & _). assumption.
Qed.

Import LoanApplicationSystem.

Local Ltac unchanged :=
  split; [simpl; congruence|left; split; [reflexivity|discriminate]].

Lemma make_payment_cases (s : t) (c : option Z) (a : option float) (now : Z) :
  current_user (fst (make_payment s c a now)) = current_user s /\
  ((db (fst (make_payment s c a now)) = db s
    /\ snd (make_payment s c a now) <> Printed "Payment successful")
   \/ exists user n r amount,
        current_user s = Some user /\ c = Some n /\ a = Some amount
        /\ Py.index (Loan.get_user_loans (db s) (User.user_id user)) (n - 1)
           = Some (Loan.of_row r)
        /\ In r (Db.loans (db s))
        /\ Db.sql_eq (Loans.user_id r) (User.user_id user) = true
        /\ Loans.status r = "approved"
        /\ PrimFloat.leb amount 0 = false
        /\ PrimFloat.ltb (Loans.current_balance r) amount = false
        /\ db (fst (make_payment s c a now)) = Ledger.pay amount now r (db s)
        /\ snd (make_payment s c a now) = Printed "Payment successful").
Proof.
  unfold make_payment.
  destruct (current_user s) as [user|] eqn:Eu;
    [|unchanged].
  destruct (Loan.get_user_loans (db s) (User.user_id user)) as [|l0 ls] eqn:El;
    [unchanged|].
  rewrite <- El.
  destruct c as [n|];
    [|unchanged].
  destruct (_ && _);
    [|unchanged].
  destruct (Py.index _ (n - 1)) as [loan|] eqn:Ei;
    [|unchanged].
  destruct (get_user_loans_rows _ _ _ _ Ei) as (r & Hr & -> & Hu).
  destruct (String.eqb (Loan.status (Loan.of_row r)) "approved") eqn:Es; simpl;
    [|unchanged].
  apply String.eqb_eq in Es. simpl in Es.
  destruct a as [amount|];
    [|unchanged].
  rewrite make_payment_of_row.
  destruct (PrimFloat.leb amount 0) eqn:G1;
    [unchanged|].
  destruct (PrimFloat.ltb (Loans.current_balance r) amount) eqn:G2;
    [unchanged|].
  simpl. split; [assumption|]. right.
  exists user, n, r, amount. repeat split; assumption || reflexivity.
Qed.

Lemma approve_loans_cases (s : t) (c : option Z) (action : string) :
  current_user (fst (approve_loans s c action)) = current_user s /\
  (db (fst (approve_loans s c action)) = db s
   \/ exists r st,
        In r (Db.loans (db s)) /\ Loans.status r = "pending"
        /\ (st = "approved" \/ st = "rejected")
        /\ db (fst (approve_loans s c action))
           = Db.update_loans (Loans.loan_id r) (Loans.with_status st) (db s)).
Proof.
  unfold approve_loans.
  destruct (pending_loans (db s)) as [|p0 ps] eqn:Ep; [(split; [simpl; congruence|now left])|].
  rewrite <- Ep.
  destruct c as [n|]; [|(split; [simpl; congruence|now left])].
  destruct (_ && _); [|(split; [simpl; congruence|now left])].
  destruct (Py.index _ (n - 1)) as [[r name]|] eqn:Ei; [|(split; [simpl; congruence|now left])].
  apply pending_loans_rows in Ei. destruct Ei as [Hr Hs].
  destruct (String.eqb (Py.lower action) "a").
  { split; [reflexivity|]. right. exists r, "approved". auto. }
  destruct (String.eqb (Py.lower action) "r").
  { split; [reflexivity|]. right. exists r, "rejected". auto. }
  (split; [simpl; congruence|now left]).
Qed.

Lemma apply_for_loan_cases (s : t) (a : option float) (n : option Z)
    (now : Z) :
  current_user (fst (apply_for_loan s a n now)) = current_user s /\
  (db (fst (apply_for_loan s a n now)) = db s
   \/ exists user amount term q,
        current_user s = Some user /\ a = Some amount /\ n = Some term
        /\ Py.int_truediv term 12 = inr q
        /\ db (fst (apply_for_loan s a n now))
           = snd (Loan.save
                    (Loan.mk None (User.user_id user) amount term
                             (Py.min (PrimFloat.add 5 q) 15) "pending" now
                             amount) (db s))).
Proof.
  unfold apply_for_loan.
  destruct (current_user s) as [user|] eqn:Eu; [|(split; [simpl; congruence|now left])].
  destruct a as [amount|]; [|(split; [simpl; congruence|now left])].
  destruct n as [term|]; [|(split; [simpl; congruence|now left])].
  destruct (Py.int_truediv term 12) as [[]|q] eqn:Eq; try (split; [simpl; congruence|now left]).
  simpl. split; [assumption|]. right. exists user, amount, term, q.
  repeat split; assumption || reflexivity.
Qed.

Lemma run1_transition (s : t) (c : command) :
  Ledger.transition (db s) (db (run1 s c)).
Proof.
  destruct c; unfold run1; destruct (current_user s) as [u|] eqn:Eu;
    try apply Ledger.t_none.
  - unfold login. destruct User.get_by_username; [|apply Ledger.t_none].
    destruct password_ok; apply Ledger.t_none.
  - unfold register. destruct User.get_by_username; [apply Ledger.t_none|].
    destruct (negb _); [apply Ledger.t_none|]. apply Ledger.t_register.
  - destruct (apply_for_loan_cases s amount_in term_in now) as [_ [->|H]];
      [apply Ledger.t_none|].
    destruct H as (user & amount & term & q & _ & _ & _ & Hq & ->).
    now apply Ledger.t_apply.
  - destruct (make_payment_cases s choice_in amount_in now) as [_ [[-> _]|H]];
      [apply Ledger.t_none|].
    destruct H as (user & n & r & amount & _ & _ & _ & _ & Hr & _ & Hs & G1
                   & G2 & -> & _).
    now apply Ledger.t_pay.
  - destruct (is_admin s); [|apply Ledger.t_none].
    destruct (approve_loans_cases s choice_in action_in) as [_ [->|H]];
      [apply Ledger.t_none|].
    destruct H as (r & st & Hr & Hs & Hst & ->).
    now apply Ledger.t_decide.
Qed.

(** ** The ledger invariant *)

Lemma balance_after_snoc (p a : float) (l : list float) :
  Ledger.balance_after p (l ++ [a])%list
  = PrimFloat.sub (Ledger.balance_after p l) a.
Proof. unfold Ledger.balance_after. now rewrite fold_left_app. Qed.

Lemma accepted_snoc (p a : float) (l : list float) :
  Ledger.accepted p (l ++ [a])%list
  = Ledger.accepted p l
    && (negb (PrimFloat.leb a 0)
        && negb (PrimFloat.ltb (Ledger.balance_after p l) a)).
Proof.
  revert p. induction l as [|x l IH]; intros p; simpl.
  - now rewrite andb_true_r.
  - rewrite IH. now rewrite <- !andb_assoc.
Qed.

Lemma wf_iff (d : Db.t) :
  Ledger.wf d = true <->
  Ledger.nodup (map Loans.loan_id (Db.loans d)) = true
  /\ (forall r, In r (Db.loans d) -> Loans.loan_id r <= Db.loans_seq d)
  /\ Ledger.nodup (map Users.user_id (Db.users d)) = true
  /\ (forall r, In r (Db.users d) -> Users.user_id r <= Db.users_seq d)
  /\ (forall p, In p (Db.payments d) ->
      exists i, Payments.loan_id p = Some i /\ i <= Db.loans_seq d).
Proof.
  unfold Ledger.wf. rewrite !andb_true_iff, !forallb_forall.
  split.
  - intros ((((H1 & H2) & H3) & H4) & H5). repeat split; try assumption.
    + intros r Hr. specialize (H2 r Hr). lia.
    + intros r Hr. specialize (H4 r Hr). lia.
    + intros p Hp. specialize (H5 p Hp).
      destruct (Payments.loan_id p) as [i|]; [|discriminate].
      exists i. split; [reflexivity|lia].
  - intros (H1 & H2 & H3 & H4 & H5). repeat split; try assumption.
    + intros r Hr. specialize (H2 r Hr). lia.
    + intros r Hr. specialize (H4 r Hr). lia.
    + intros p Hp. destruct (H5 p Hp) as (i & -> & Hi). lia.
Qed.

Lemma recorded_fresh (d : Db.t) (i : Z) :
  Ledger.wf d = true -> Db.loans_seq d < i -> Ledger.recorded d i = [].
Proof.
  rewrite wf_iff. intros (_ & _ & _ & _ & H) Hi. unfold Ledger.recorded.
  induction (Db.payments d) as [|p ps IH]; [reflexivity|]. simpl.
  destruct (H p (or_introl eq_refl)) as (j & -> & Hj). simpl.
  replace (j =? i) with false by lia.
  apply IH. intros q Hq. apply H. now right.
Qed.

Lemma recorded_pay (a : float) (now : Z) (r : Loans.row) (d : Db.t) (i : Z) :
  Ledger.recorded (Ledger.pay a now r d) i
  = if Loans.loan_id r =? i then (Ledger.recorded d i ++ [a])%list
    else Ledger.recorded d i.
Proof.
  unfold Ledger.recorded, Ledger.pay. simpl.
  rewrite filter_app, map_app. simpl.
  destruct (Loans.loan_id r =? i); simpl; [reflexivity|apply app_nil_r].
Qed.

Lemma loan_ok_ext (d d' : Db.t) (l : Loans.row) :
  Ledger.recorded d' (Loans.loan_id l) = Ledger.recorded d (Loans.loan_id l) ->
  Ledger.loan_ok d l -> Ledger.loan_ok d' l.
Proof.
  intros E [H1 H2 H3 H4 H5 H6 H7]. constructor; rewrite ?E; assumption.
Qed.

Lemma invariant_empty : Ledger.invariant Db.empty.
Proof. split; [reflexivity|intros l []]. Qed.

Lemma invariant_register (d : Db.t) (name hash : string) (admin : bool)
    (now : Z) :
  Ledger.invariant d ->
  Ledger.invariant (snd (User.save (User.create name hash admin) now d)).
Proof.
  intros [Hwf Hok]. simpl. split.
  - apply wf_iff in Hwf. destruct Hwf as (H1 & H2 & H3 & H4 & H5).
    apply wf_iff. simpl. repeat split; try assumption.
    + rewrite map_app. simpl. apply nodup_snoc; [assumption|].
      intros y Hy. apply in_map_iff in Hy. destruct Hy as (u & <- & Hu).
      specialize (H4 u Hu). lia.
    + intros u Hu. apply in_app_or in Hu. destruct Hu as [Hu|[<-|[]]].
      * specialize (H4 u Hu). lia.
      * simpl. lia.
  - intros l Hl. simpl in Hl. apply (loan_ok_ext d); [reflexivity|auto].
Qed.

Lemma invariant_apply (d : Db.t) (uid : option Z) (amount : float) (term : Z)
    (q : float) (now : Z) :
  Py.int_truediv term 12 = inr q ->
  Ledger.invariant d ->
  Ledger.invariant
    (snd (Loan.save
            (Loan.mk None uid amount term (Py.min (PrimFloat.add 5 q) 15)
                     "pending" now amount) d)).
Proof.
  intros Hq [Hwf Hok]. simpl.
  pose proof (recorded_fresh d (Db.loans_seq d + 1) Hwf ltac:(lia)) as Hnew.
  split.
  - apply wf_iff in Hwf. destruct Hwf as (H1 & H2 & H3 & H4 & H5).
    apply wf_iff. simpl. repeat split; try assumption.
    + rewrite map_app. simpl. apply nodup_snoc; [assumption|].
      intros y Hy. apply in_map_iff in Hy. destruct Hy as (u & <- & Hu).
      specialize (H2 u Hu). lia.
    + intros u Hu. apply in_app_or in Hu. destruct Hu as [Hu|[<-|[]]].
      * specialize (H2 u Hu). lia.
      * simpl. lia.
    + intros p Hp. destruct (H5 p Hp) as (i & E & Hi). exists i.
      split; [assumption|lia].
  - intros l Hl. simpl in Hl. apply in_app_or in Hl.
    destruct Hl as [Hl|[<-|[]]].
    + apply (loan_ok_ext d); [reflexivity|auto].
    + apply (loan_ok_ext d); [reflexivity|].
      constructor; simpl; rewrite ?Hnew; try reflexivity.
      * left. reflexivity.
      * intros [=].
      * intros [=].
      * exists q. split; [assumption|reflexivity].
Qed.

Lemma invariant_decide (d : Db.t) (r : Loans.row) (s : string) :
  In r (Db.loans d) -> Loans.status r = "pending" ->
  s = "approved" \/ s = "rejected" ->
  Ledger.invariant d ->
  Ledger.invariant (Db.update_loans (Loans.loan_id r) (Loans.with_status s) d).
Proof.
  intros Hr Hs Hst [Hwf Hok].
  pose proof Hwf as Hwf'. apply wf_iff in Hwf'.
  destruct Hwf' as (H1 & H2 & H3 & H4 & H5).
  split.
  - apply wf_iff. simpl. repeat split; try assumption.
    + rewrite map_map. erewrite map_ext; [exact H1|].
      intros x. simpl. now destruct (Loans.loan_id x =? Loans.loan_id r).
    + intros x Hx. apply in_map_iff in Hx. destruct Hx as (y & <- & Hy).
      specialize (H2 y Hy).
      now destruct (Loans.loan_id y =? Loans.loan_id r).
  - intros l Hl. simpl in Hl. apply in_map_iff in Hl.
    destruct Hl as (y & <- & Hy).
    destruct (Loans.loan_id y =? Loans.loan_id r) eqn:E.
    + apply Z.eqb_eq in E.
      assert (y = r) by (eapply nodup_unique; eauto). subst y.
      destruct (Hok r Hr) as [K1 K2 K3 K4 K5 K6 K7].
      specialize (K4 (or_introl Hs)).
      constructor; simpl; try assumption.
      * destruct Hst as [->| ->]; unfold Ledger.known_status; auto.
      * intros _. assumption.
      * intros ->. destruct Hst as [[=]|[=]].
      * intros _. now left.
    + apply (loan_ok_ext d); [reflexivity|auto].
Qed.

Lemma invariant_pay (d : Db.t) (r : Loans.row) (a : float) (now : Z) :
  In r (Db.loans d) -> Loans.status r = "approved" ->
  PrimFloat.leb a 0 = false ->
  PrimFloat.ltb (Loans.current_balance r) a = false ->
  Ledger.invariant d ->
  Ledger.invariant (Ledger.pay a now r d).
Proof.
  intros Hr Hs G1 G2 [Hwf Hok].
  pose proof Hwf as Hwf'. apply wf_iff in Hwf'.
  destruct Hwf' as (H1 & H2 & H3 & H4 & H5).
  split.
  - apply wf_iff. simpl. repeat split; try assumption.
    + rewrite map_map. erewrite map_ext; [exact H1|].
      intros x. simpl.
      destruct (Loans.loan_id x =? Loans.loan_id r) eqn:E; [|reflexivity].
      simpl. apply Z.eqb_eq in E. now symmetry.
    + intros x Hx. apply in_map_iff in Hx. destruct Hx as (y & <- & Hy).
      destruct (Loans.loan_id y =? Loans.loan_id r); simpl; auto.
    + intros p Hp. apply in_app_or in Hp. destruct Hp as [Hp|[<-|[]]]; auto.
      simpl. eauto.
  - intros l Hl. simpl in Hl. apply in_map_iff in Hl.
    destruct Hl as (y & <- & Hy).
    destruct (Loans.loan_id y =? Loans.loan_id r) eqn:E.
    + destruct (Hok r Hr) as [K1 K2 K3 K4 K5 K6 K7].
      constructor; simpl; rewrite ?recorded_pay, ?Z.eqb_refl.
      * now rewrite balance_after_snoc, K1.
      * rewrite accepted_snoc, K2, <- K1, G1, G2. reflexivity.
      * destruct (PrimFloat.eqb (PrimFloat.sub (Loans.current_balance r) a) 0); [|assumption].
        unfold Ledger.known_status. auto.
      * destruct (PrimFloat.eqb (PrimFloat.sub (Loans.current_balance r) a) 0); rewrite ?Hs; intros [[=]|[=]].
      * destruct (PrimFloat.eqb (PrimFloat.sub (Loans.current_balance r) a) 0) eqn:Z0; [reflexivity|].
        rewrite Hs. intros [=].
      * destruct (PrimFloat.eqb (PrimFloat.sub (Loans.current_balance r) a) 0) eqn:Z0; [intros [=]|]. now right.
      * assumption.
    + apply (loan_ok_ext d); [|auto].
      rewrite recorded_pay. rewrite Z.eqb_sym in E. now rewrite E.
Qed.

Lemma invariant_transition (d d' : Db.t) :
  Ledger.transition d d' -> Ledger.invariant d -> Ledger.invariant d'.
Proof.
  destruct 1; intros Hinv.
  - assumption.
  - now apply invariant_register.
  - now apply invariant_apply.
  - now apply invariant_decide.
  - now apply invariant_pay.
Qed.


Lemma invariant_run (s : t) (cs : list command) :
  Ledger.invariant (db s) -> Ledger.invariant (db (run s cs)).
Proof.
  revert s. induction cs as [|c cs IH]; intros s H; simpl; [assumption|].
  apply IH. apply (invariant_transition (db s)); [|assumption].
  apply run1_transition.
Qed.

Lemma invariant_init (admin_hash : string) (now : Z) :
  Ledger.invariant (db (__init__ None admin_hash now)).
Proof. apply invariant_register, invariant_empty. Qed.

Lemma invariant_reachable (admin_hash : string) (now : Z)
    (cs : list command) :
  Ledger.invariant (db (run (__init__ None admin_hash now) cs)).
Proof. apply invariant_run, invariant_init. Qed.
(** ** Binary64 subtraction of a smaller positive number *)

Lemma digits2_size (p : positive) : digits2_pos p = Pos.size p.
Proof. induction p; simpl; congruence. Qed.

Lemma digits2_bounds (p : positive) :
  2 ^ (Zpos (digits2_pos p) - 1) <= Zpos p < 2 ^ Zpos (digits2_pos p).
Proof.
  rewrite digits2_size. split.
  - pose proof (Pos.size_le p) as H.
    assert (2 ^ Zpos (Pos.size p) <= 2 * Zpos p) as H'.
    { rewrite <- Pos2Z.inj_pow. exact H. }
    replace (Zpos (Pos.size p)) with (Zpos (Pos.size p) - 1 + 1) in H' by lia.
    rewrite Z.pow_add_r in H' by lia. lia.
  - pose proof (Pos.size_gt p) as H. rewrite <- Pos2Z.inj_pow. exact H.
Qed.

Lemma Zdigits2_bounds (m : Z) :
  0 < m -> 2 ^ (Zdigits2 m - 1) <= m < 2 ^ Zdigits2 m.
Proof. destruct m; try lia. intros _. apply digits2_bounds. Qed.

Lemma iter_xO (m d : positive) : Zpos (Pos.iter xO m d) = Zpos m * 2 ^ Zpos d.
Proof.
  rewrite <- Z.shiftl_mul_pow2 by lia. simpl.
  apply (Pos.iter_swap_gen _ _ Zpos xO (Z.mul 2)). reflexivity.
Qed.

Lemma iter_pos_nat {A} (f : A -> A) (p : positive) (x : A) :
  iter_pos f p x = Nat.iter (Pos.to_nat p) f x.
Proof.
  revert x. induction p as [p IH|p IH|]; intros x; cbn [iter_pos].
  - rewrite !IH, Pos2Nat.inj_xI, Nat.iter_succ_r, <- Nat.iter_add.
    f_equal. lia.
  - rewrite !IH, Pos2Nat.inj_xO, <- Nat.iter_add. f_equal. lia.
  - reflexivity.
Qed.

Lemma shr_1_m (mrs : shr_record) :
  0 <= shr_m mrs -> shr_m (shr_1 mrs) = shr_m mrs / 2.
Proof.
  destruct mrs as [m r s]. simpl. intros Hm. rewrite <- Z.div2_div.
  destruct m as [|[p|p|]|p]; try reflexivity. lia.
Qed.

Lemma shr_iter_m (n : nat) (mrs : shr_record) :
  0 <= shr_m mrs ->
  shr_m (Nat.iter n shr_1 mrs) = shr_m mrs / 2 ^ Z.of_nat n.
Proof.
  intros Hm. induction n as [|n IH].
  - simpl. now rewrite Z.div_1_r.
  - rewrite Nat2Z.inj_succ, Z.pow_succ_r by apply Nat2Z.is_nonneg.
    rewrite Nat.iter_succ. rewrite shr_1_m; rewrite IH.
    + rewrite Z.div_div by lia. f_equal. lia.
    + apply Z.div_pos; lia.
Qed.

(** The mantissa and the exponent that [shr] leaves. *)
Lemma shr_m_e (m : Z) (r s : bool) (e n : Z) :
  0 <= m ->
  shr_m (fst (shr (Build_shr_record m r s) e n)) = m / 2 ^ Z.max 0 n
  /\ snd (shr (Build_shr_record m r s) e n) = e + Z.max 0 n.
Proof.
  intros Hm. destruct n as [|p|p]; simpl.
  - rewrite Z.div_1_r. split; [reflexivity|lia].
  - rewrite iter_pos_nat, shr_iter_m by assumption. simpl.
    rewrite positive_nat_Z. split; reflexivity.
  - rewrite Z.div_1_r. split; [reflexivity|lia].
Qed.

Lemma shr_exact (m : Z) (e n : Z) :
  n <= 0 -> shr (Build_shr_record m false false) e n
            = (Build_shr_record m false false, e).
Proof. destruct n; simpl; try reflexivity. lia. Qed.

Lemma round_nearest_even_bounds (m : Z) (l : location) :
  m <= round_nearest_even m l <= m + 1.
Proof.
  destruct l as [|[]]; simpl; try lia. destruct (Z.even m); lia.
Qed.

Local Abbreviation fexp := (SpecFloat.fexp prec emax).

Lemma fexp_mono (x y : Z) : x <= y -> fexp x <= fexp y.
Proof. unfold SpecFloat.fexp. lia. Qed.

Lemma fexp_fexp (x : Z) : fexp (fexp x) <= fexp x.
Proof. unfold SpecFloat.fexp, SpecFloat.emin, prec, emax. lia. Qed.

Lemma bounded_canonical (m : positive) (e : Z) :
  bounded prec emax m e = true ->
  fexp (Zpos (digits2_pos m) + e) = e /\ e <= emax - prec.
Proof.
  unfold bounded, canonical_mantissa. rewrite andb_true_iff. lia.
Qed.

Lemma pow2_pos (n : Z) : 0 <= n -> 0 < 2 ^ n.
Proof. intros. apply Z.pow_pos_nonneg; lia. Qed.

Lemma pow2_split (a b : Z) : 0 <= a -> 0 <= b -> 2 ^ (a + b) = 2 ^ a * 2 ^ b.
Proof. intros. apply Z.pow_add_r; assumption. Qed.

(** A smaller value has no more digits above the common exponent. *)
Lemma digits_le (mx mb ex eb c : Z) :
  0 < mx -> 0 < mb -> c <= ex -> c <= eb ->
  mx * 2 ^ (ex - c) <= mb * 2 ^ (eb - c) ->
  Zdigits2 mx + ex <= Zdigits2 mb + eb.
Proof.
  intros Hx Hb Hcx Hcb H.
  destruct (Zdigits2_bounds mx Hx) as [Lx _].
  destruct (Zdigits2_bounds mb Hb) as [_ Ub].
  assert (1 <= Zdigits2 mx) by (destruct mx; simpl; lia).
  assert (1 <= Zdigits2 mb) by (destruct mb; simpl; lia).
  pose proof (pow2_pos (ex - c) ltac:(lia)) as Px.
  pose proof (pow2_pos (eb - c) ltac:(lia)) as Pb.
  assert (2 ^ (Zdigits2 mx - 1 + (ex - c)) < 2 ^ (Zdigits2 mb + (eb - c))) as L.
  { rewrite !pow2_split by lia. nia. }
  apply Z.pow_lt_mono_r_iff in L; lia.
Qed.

(** Rounding a positive value that lies below a binary64 number [mb * 2^eb]
    gives zero or a number that is not above it. *)
Lemma binary_round_aux_below (mx ex : Z) (mb : positive) (eb c : Z) :
  0 < mx -> bounded prec emax mb eb = true ->
  ex <= fexp (Zdigits2 mx + ex) -> c <= ex -> c <= eb ->
  mx * 2 ^ (ex - c) < Zpos mb * 2 ^ (eb - c) ->
  binary_round_aux prec emax false mx ex loc_Exact = S754_zero false
  \/ exists m e,
       binary_round_aux prec emax false mx ex loc_Exact = S754_finite false m e
       /\ e <= eb /\ (e = eb -> (m <= mb)%positive).
Proof.
  intros Hx Hb Hex Hcx Hcb Hv.
  destruct (bounded_canonical _ _ Hb) as [Cb Eb].
  unfold binary_round_aux, shr_fexp. cbn [shr_record_of_loc].
  set (e1 := fexp (Zdigits2 mx + ex)) in *.
  assert (e1 <= eb) as He1.
  { rewrite <- Cb. apply fexp_mono.
    apply (digits_le mx (Zpos mb) ex eb c); lia. }
  destruct (shr_m_e mx false false ex (e1 - ex) ltac:(lia)) as [M1 E1].
  destruct (shr (Build_shr_record mx false false) ex (e1 - ex))
    as [mrs1 e1'] eqn:S1.
  cbn [fst snd] in M1, E1. rewrite Z.max_r in M1, E1 by lia.
  replace (ex + (e1 - ex)) with e1 in E1 by lia. subst e1'.
  set (m1r := round_nearest_even (shr_m mrs1) (loc_of_shr_record mrs1)).
  pose proof (pow2_pos (ex - c) ltac:(lia)) as Px.
  pose proof (pow2_pos (e1 - ex) ltac:(lia)) as Pn.
  pose proof (pow2_pos (eb - e1) ltac:(lia)) as Pk.
  assert (2 ^ (e1 - c) = 2 ^ (e1 - ex) * 2 ^ (ex - c)) as P1.
  { rewrite <- pow2_split by lia. f_equal. lia. }
  assert (2 ^ (eb - c) = 2 ^ (eb - e1) * 2 ^ (e1 - c)) as P2.
  { rewrite <- pow2_split by lia. f_equal. lia. }
  assert (0 <= shr_m mrs1) as Hm1.
  { rewrite M1. apply Z.div_pos; lia. }
  assert (0 <= m1r /\ m1r * 2 ^ (e1 - c) <= Zpos mb * 2 ^ (eb - c)) as [Hr0 Hr].
  { pose proof (round_nearest_even_bounds (shr_m mrs1)
                                          (loc_of_shr_record mrs1)) as B.
    fold m1r in B. split; [lia|].
    destruct (Z.eq_dec e1 ex) as [E|E].
    - rewrite E, Z.sub_diag in S1. rewrite shr_exact in S1 by lia.
      injection S1 as <-. unfold m1r.
      cbn [round_nearest_even loc_of_shr_record shr_m shr_r shr_s].
      rewrite E. lia.
    - assert (mx < (Zpos mb * 2 ^ (eb - e1)) * 2 ^ (e1 - ex)) as Hlt.
      { rewrite P2, P1 in Hv. nia. }
      assert (mx / 2 ^ (e1 - ex) < Zpos mb * 2 ^ (eb - e1)) as Hdiv.
      { apply Z.div_lt_upper_bound; lia. }
      rewrite P2. pose proof (pow2_pos (e1 - c) ltac:(lia)). nia. }
  destruct (shr_m_e m1r false false e1 (fexp (Zdigits2 m1r + e1) - e1) Hr0)
    as [M2 E2].
  destruct (shr (Build_shr_record m1r false false) e1
                (fexp (Zdigits2 m1r + e1) - e1)) as [mrs2 e2] eqn:S2.
  cbn [fst snd] in M2, E2.
  set (k := Z.max 0 (fexp (Zdigits2 m1r + e1) - e1)) in *.
  assert (0 <= k) as Hk by lia.
  pose proof (pow2_pos k Hk) as Pk2.
  assert (0 <= shr_m mrs2) as Hm2 by (rewrite M2; apply Z.div_pos; lia).
  destruct (shr_m mrs2) as [|m|m] eqn:Em; [now left| |lia].
  right. exists m, e2.
  assert (0 < m1r) as Hr1.
  { destruct (Z.eq_dec m1r 0) as [Z0|]; [|lia].
    rewrite Z0, Z.div_0_l in M2 by lia. discriminate. }
  assert (e2 <= eb) as He2.
  { subst e2. unfold k. apply Z.max_case_strong; intros; [lia|].
    replace (e1 + (fexp (Zdigits2 m1r + e1) - e1))
      with (fexp (Zdigits2 m1r + e1)) by lia.
    rewrite <- Cb. apply fexp_mono.
    apply (digits_le m1r (Zpos mb) e1 eb c); lia. }
  replace (e2 <=? emax - prec) with true by lia.
  split; [reflexivity|]. split; [assumption|].
  intros Ee.
  assert (Zpos m * 2 ^ k <= m1r) as Hfl.
  { rewrite M2. rewrite Z.mul_comm. apply Z.mul_div_le. lia. }
  assert (2 ^ (eb - c) = 2 ^ k * 2 ^ (e1 - c)) as P3.
  { rewrite <- pow2_split by lia. f_equal. lia. }
  pose proof (pow2_pos (e1 - c) ltac:(lia)) as Pc.
  rewrite P3 in Hr.
  assert (Zpos m <= Zpos mb); [|lia].
  apply Z.mul_le_mono_pos_r with (p := 2 ^ k * 2 ^ (e1 - c)); nia.
Qed.

Lemma shl_align_spec (m : positive) (e e' : Z) :
  snd (shl_align m e e') = Z.min e e'
  /\ Zpos (fst (shl_align m e e')) = Zpos m * 2 ^ (e - Z.min e e').
Proof.
  unfold shl_align. destruct (e' - e) as [|d|d] eqn:E; cbn [fst snd].
  - rewrite Z.min_l by lia. rewrite Z.sub_diag. lia.
  - rewrite Z.min_l by lia. rewrite Z.sub_diag. lia.
  - rewrite Z.min_r by lia. rewrite iter_xO. split; [reflexivity|].
    f_equal. f_equal. lia.
Qed.

(** [x - y] for two positive binary64 numbers with [y <= x]: zero or a
    positive number not above [x]. *)
Lemma SFsub_below (mb : positive) (eb : Z) (ma : positive) (ea : Z) :
  bounded prec emax mb eb = true -> bounded prec emax ma ea = true ->
  SFltb (S754_finite false mb eb) (S754_finite false ma ea) = false ->
  SFsub prec emax (S754_finite false mb eb) (S754_finite false ma ea)
  = S754_zero false
  \/ exists m e,
       SFsub prec emax (S754_finite false mb eb) (S754_finite false ma ea)
       = S754_finite false m e
       /\ e <= eb /\ (e = eb -> (m <= mb)%positive).
Proof.
  intros Hb Ha Hlt.
  destruct (bounded_canonical _ _ Hb) as [Cb Eb].
  destruct (bounded_canonical _ _ Ha) as [Ca Ea].
  pose proof (digits2_bounds mb) as [Lb Ub].
  pose proof (digits2_bounds ma) as [La Ua].
  assert (ea <= eb /\ Zpos ma <= Zpos mb * 2 ^ (eb - ea)) as [Hle Hma].
  { unfold SFltb, SFcompare in Hlt.
    destruct (Z.compare_spec eb ea) as [E|E|E]; [|discriminate|].
    - subst ea. rewrite Z.sub_diag. split; [lia|].
      destruct (Pos.compare_cont Eq mb ma) eqn:Cm; try discriminate;
        change (Pos.compare_cont Eq mb ma) with (mb ?= ma)%positive in Cm.
      + apply Pos.compare_eq in Cm. subst. lia.
      + apply Pos.compare_gt_iff in Cm. lia.
    - split; [lia|].
      unfold SpecFloat.fexp, SpecFloat.emin, prec, emax in Ca, Cb.
      assert (Zpos (digits2_pos mb) = 53) as Db by lia.
      assert (Zpos (digits2_pos ma) <= 53) as Da by lia.
      rewrite Db in Lb. change (2 ^ (53 - 1)) with 4503599627370496 in Lb.
      assert (Zpos ma < 2 ^ 53) as Ua'.
      { eapply Z.lt_le_trans; [exact Ua|].
        apply Z.pow_le_mono_r; lia. }
      change (2 ^ 53) with 9007199254740992 in Ua'.
      assert (2 ^ 1 <= 2 ^ (eb - ea)) as P by (apply Z.pow_le_mono_r; lia).
      change (2 ^ 1) with 2 in P. nia. }
  unfold SFsub. cbn [cond_Zopp].
  rewrite Z.min_r by lia.
  destruct (shl_align_spec mb eb ea) as [_ Vb].
  destruct (shl_align_spec ma ea ea) as [_ Va].
  rewrite Z.min_r in Vb by lia. rewrite Z.min_r, Z.sub_diag in Va by lia.
  rewrite Vb, Va. change (2 ^ 0) with 1. rewrite Z.mul_1_r.
  set (D := Zpos mb * 2 ^ (eb - ea) - Zpos ma) in *.
  assert (0 <= D < Zpos mb * 2 ^ (eb - ea)) as HD by (unfold D; lia).
  clearbody D. clear Vb Va.
  destruct D as [|p|p]; [now left| |lia].
  unfold binary_normalize, binary_round.
  set (f := SpecFloat.fexp prec emax (Zpos (digits2_pos p) + ea)).
  destruct (shl_align_spec p ea f) as [Se Sm].
  destruct (shl_align p ea f) as [mz ez]. cbn [fst snd] in Se, Sm.
  rewrite <- Se in Sm.
  pose proof (pow2_pos (ea - ez) ltac:(lia)) as P1.
  pose proof (pow2_pos (eb - ea) ltac:(lia)) as P2.
  apply binary_round_aux_below with (c := ez); try assumption; try lia.
  - assert (Zdigits2 (Zpos mz) + ez = Zdigits2 (Zpos p) + ea) as Dg.
    { apply Z.le_antisymm;
        [apply (digits_le _ _ _ _ ez)|apply (digits_le _ _ _ _ ez)]; try lia;
        rewrite Z.sub_diag; change (2 ^ 0) with 1; lia. }
    rewrite Dg. cbn [Zdigits2]. fold f. lia.
  - rewrite Z.sub_diag. change (2 ^ 0) with 1. rewrite Z.mul_1_r, Sm.
    replace (eb - ez) with ((eb - ea) + (ea - ez)) by lia.
    rewrite pow2_split by lia. nia.
Qed.

(** ** The same facts on primitive floats *)

Lemma Prim2SF_zero : Prim2SF 0 = S754_zero false.
Proof. reflexivity. Qed.

Lemma Prim2SF_infinity : Prim2SF infinity = S754_infinity false.
Proof. reflexivity. Qed.

Lemma finite_nonneg_shape (b : float) :
  Ledger.finite_nonneg b = true ->
  (exists s, Prim2SF b = S754_zero s)
  \/ exists m e, Prim2SF b = S754_finite false m e
                 /\ bounded prec emax m e = true.
Proof.
  unfold Ledger.finite_nonneg. rewrite andb_true_iff.
  rewrite leb_spec, ltb_spec, Prim2SF_zero, Prim2SF_infinity.
  pose proof (Prim2SF_valid b) as V.
  destruct (Prim2SF b) as [s|s| |s m e]; cbn; intros [H1 H2];
    try discriminate.
  - left. now exists s.
  - destruct s; discriminate.
  - destruct s; [discriminate|]. right. now exists m, e.
Qed.

Lemma finite_nonneg_of_shape (x : float) :
  Prim2SF x = S754_zero false
  \/ (exists m e, Prim2SF x = S754_finite false m e) ->
  Ledger.finite_nonneg x = true.
Proof.
  unfold Ledger.finite_nonneg.
  rewrite leb_spec, ltb_spec, Prim2SF_zero, Prim2SF_infinity.
  intros [->|(m & e & ->)]; reflexivity.
Qed.

(** A number that is not [nan] and passes the guard [amount <= 0] is
    positive: a positive binary64 number or [+inf]. *)
Lemma positive_shape (a : float) :
  PrimFloat.is_nan a = false -> PrimFloat.leb a 0 = false ->
  Prim2SF a = S754_infinity false
  \/ exists m e, Prim2SF a = S754_finite false m e
                 /\ bounded prec emax m e = true.
Proof.
  unfold PrimFloat.is_nan. rewrite negb_false_iff.
  rewrite eqb_spec, leb_spec, Prim2SF_zero.
  pose proof (Prim2SF_valid a) as V.
  destruct (Prim2SF a) as [s|s| |s m e]; cbn; intros H1 H2;
    try discriminate.
  - destruct s; [discriminate|]. now left.
  - destruct s; [discriminate|]. right. now exists m, e.
Qed.

(** The balance after a payment that passed both guards of
    [Loan.make_payment], for a balance that is a non-negative number and an
    amount that is a number. *)
Lemma payment_in_range (b a : float) :
  Ledger.finite_nonneg b = true ->
  PrimFloat.is_nan a = false ->
  PrimFloat.leb a 0 = false ->
  PrimFloat.ltb b a = false ->
  Ledger.finite_nonneg (PrimFloat.sub b a) = true
  /\ PrimFloat.leb (PrimFloat.sub b a) b = true.
Proof.
  intros Hb Hn G1 G2.
  destruct (positive_shape a Hn G1) as [Ea|(ma & ea & Ea & Va)];
    destruct (finite_nonneg_shape b Hb) as [(s & Eb)|(mb & eb & Eb & Vb)];
    rewrite ltb_spec, Ea, Eb in G2; try discriminate G2.
  pose proof (sub_spec b a) as S. rewrite Ea, Eb in S.
  destruct (SFsub_below mb eb ma ea Vb Va G2) as [R|(m & e & R & He & Hm)];
    unfold SF64sub in S; rewrite R in S.
  - split; [apply finite_nonneg_of_shape; now left|].
    rewrite leb_spec, S, Eb. reflexivity.
  - split; [apply finite_nonneg_of_shape; right; now exists m, e|].
    rewrite leb_spec, S, Eb. unfold SFleb, SFcompare.
    destruct (Z.compare_spec e eb) as [E|E|E]; [|reflexivity|lia].
    specialize (Hm E).
    change (Pos.compare_cont Eq m mb) with (m ?= mb)%positive.
    destruct (m ?= mb)%positive eqn:C; try reflexivity.
    apply Pos.compare_gt_iff in C. lia.
Qed.


(** ** A loan row across one menu entry *)

Lemma leb_refl_finite (x : float) :
  Ledger.finite_nonneg x = true -> PrimFloat.leb x x = true.
Proof.
  intros H. rewrite leb_spec.
  destruct (finite_nonneg_shape x H) as [(s & ->)|(m & e & -> & _)].
  - reflexivity.
  - unfold SFleb, SFcompare. rewrite Z.compare_refl.
    change (Pos.compare_cont Eq m m) with (m ?= m)%positive.
    now rewrite Pos.compare_refl.
Qed.

Lemma leb_trans_finite (x y z : float) :
  Ledger.finite_nonneg x = true -> Ledger.finite_nonneg y = true ->
  Ledger.finite_nonneg z = true ->
  PrimFloat.leb x y = true -> PrimFloat.leb y z = true ->
  PrimFloat.leb x z = true.
Proof.
  intros Hx Hy Hz. rewrite !leb_spec.
  destruct (finite_nonneg_shape x Hx) as [(sx & ->)|(mx & ex & -> & _)];
    destruct (finite_nonneg_shape y Hy) as [(sy & ->)|(my & ey & -> & _)];
    destruct (finite_nonneg_shape z Hz) as [(sz & ->)|(mz & ez & -> & _)];
    try reflexivity; try discriminate.
  unfold SFleb, SFcompare.
  change (Pos.compare_cont Eq ?a ?b) with (a ?= b)%positive.
  destruct (Z.compare_spec ex ey) as [E1|E1|E1];
    destruct (Z.compare_spec ey ez) as [E2|E2|E2];
    destruct (Z.compare_spec ex ez) as [E3|E3|E3];
    try lia; try reflexivity; try discriminate;
    try (intros _; discriminate); try (intros _ _; reflexivity).
  destruct (Pos.compare_spec mx my); destruct (Pos.compare_spec my mz);
    destruct (Pos.compare_spec mx mz);
    try lia; try reflexivity; try discriminate;
    try (intros _; discriminate).
Qed.

(** The ledger of a loan whose principal is a non-negative number and whose
    payments are numbers: the balance stays a non-negative number, it is
    never above the principal, and the balance after each payment is not
    above the balance before it. *)
Lemma ledger_in_range (amounts : list float) (p : float) :
  Ledger.finite_nonneg p = true ->
  Ledger.no_nan amounts = true ->
  Ledger.accepted p amounts = true ->
  Ledger.finite_nonneg (Ledger.balance_after p amounts) = true
  /\ PrimFloat.leb (Ledger.balance_after p amounts) p = true
  /\ forall k,
       PrimFloat.leb (Ledger.balance_after p (firstn (S k) amounts))
                     (Ledger.balance_after p (firstn k amounts)) = true.
Proof.
  revert p. induction amounts as [|a l IH]; intros p Hp Hn Ha.
  - split; [assumption|]. split; [now apply leb_refl_finite|].
    intros k. rewrite !firstn_nil. now apply leb_refl_finite.
  - simpl in Hn, Ha. rewrite !andb_true_iff, !negb_true_iff in *.
    destruct Hn as [Na Nl]. destruct Ha as [[G1 G2] Ha].
    destruct (payment_in_range p a Hp Na G1 G2) as [R1 R2].
    destruct (IH _ R1 Nl Ha) as (I1 & I2 & I3). split; [exact I1|]. split.
    + apply (leb_trans_finite _ (PrimFloat.sub p a)); assumption.
    + intros [|k]; [exact R2|]. exact (I3 k).
Qed.

Lemma in_update_loans (i : Z) (f : Loans.row -> Loans.row) (d : Db.t)
    (x : Loans.row) :
  In x (Db.loans (Db.update_loans i f d)) <->
  exists y, In y (Db.loans d)
            /\ x = if Loans.loan_id y =? i then f y else y.
Proof.
  simpl. rewrite in_map_iff. split; intros (y & H1 & H2); exists y; auto.
Qed.

(** What a menu entry does to the row of one loan: nothing, a decision on a
    pending loan, or a payment on an approved one. *)
Lemma transition_row (d d' : Db.t) (l l' : Loans.row) :
  Ledger.transition d d' -> Ledger.wf d = true ->
  In l (Db.loans d) -> In l' (Db.loans d') ->
  Loans.loan_id l' = Loans.loan_id l ->
  (l' = l /\ Ledger.recorded d' (Loans.loan_id l)
             = Ledger.recorded d (Loans.loan_id l))
  \/ (exists s, Loans.status l = "pending"
                /\ (s = "approved" \/ s = "rejected")
                /\ l' = Loans.with_status s l
                /\ Ledger.recorded d' (Loans.loan_id l)
                   = Ledger.recorded d (Loans.loan_id l))
  \/ (exists a, Loans.status l = "approved"
                /\ PrimFloat.leb a 0 = false
                /\ PrimFloat.ltb (Loans.current_balance l) a = false
                /\ l' = Ledger.paid_down a l
                /\ Ledger.recorded d' (Loans.loan_id l)
                   = (Ledger.recorded d (Loans.loan_id l) ++ [a])%list).
Proof.
  intros T Hwf Hl Hl' Hid.
  pose proof Hwf as W. apply wf_iff in W. destruct W as (N & B & _).
  destruct T as [|name hash now|uid amount term q now Hq|r s Hr Hs Hst
                 |r a now Hr Hs G1 G2].
  - left. split; [|reflexivity]. eapply nodup_unique; eauto.
  - left. split; [|reflexivity]. simpl in Hl'. eapply nodup_unique; eauto.
  - left. split; [|reflexivity]. simpl in Hl'. apply in_app_or in Hl'.
    destruct Hl' as [Hl'|[<-|[]]]; [eapply nodup_unique; eauto|].
    simpl in Hid. specialize (B l Hl). lia.
  - apply in_update_loans in Hl'. destruct Hl' as (y & Hy & ->).
    destruct (Loans.loan_id y =? Loans.loan_id r) eqn:E.
    + apply Z.eqb_eq in E. simpl in Hid.
      assert (y = r) by (eapply nodup_unique; eauto).
      assert (y = l) by (eapply nodup_unique; eauto). subst y. subst r.
      right. left. exists s. auto.
    + left. split; [|reflexivity]. eapply nodup_unique; eauto.
  - simpl in Hl'. apply in_map_iff in Hl'. destruct Hl' as (y & <- & Hy).
    destruct (Loans.loan_id y =? Loans.loan_id r) eqn:E.
    + simpl in Hid. assert (r = l) by (eapply nodup_unique; eauto). subst r.
      right. right. exists a. rewrite recorded_pay, Z.eqb_refl. auto.
    + assert (y = l) by (eapply nodup_unique; eauto). subst y.
      left. split; [reflexivity|].
      rewrite recorded_pay. rewrite Z.eqb_sym in E. now rewrite E.
Qed.


(** * The claims of the specification *)


(** ** C1: balance, payments and principal *)


(** The balance is the principal with the payments subtracted one after the
    other in binary64, which is not always the principal minus their sum:
    10.00 paid down by 0.10 and 0.20. *)
Lemma balance_is_not_principal_minus_sum :
  Ledger.balance_after 10 [0.1; 0.2]%float = 9.700000000000001%float
  /\ PrimFloat.sub 10 (PrimFloat.add 0.1 0.2) = 9.7%float
  /\ PrimFloat.eqb 9.700000000000001 9.7 = false.
Proof. repeat split. Qed.



(** The same, menu entry by menu entry: no entry raises the balance of a
    loan whose principal is a non-negative number, as long as no [nan] is
    paid. *)
Lemma balance_never_raised (admin_hash : string) (t0 : Z)
    (cs : list command) (c : command) (l l' : Loans.row) :
  let s := run (__init__ None admin_hash t0) cs in
  In l (Db.loans (db s)) -> In l' (Db.loans (db (run1 s c))) ->
  Loans.loan_id l' = Loans.loan_id l ->
  Ledger.finite_nonneg (Loans.amount l) = true ->
  Ledger.no_nan (Ledger.recorded (db (run1 s c)) (Loans.loan_id l)) = true ->
  PrimFloat.leb (Loans.current_balance l') (Loans.current_balance l) = true.
Proof.
  intros s Hl Hl' Hid Hp Hn.
  destruct (invariant_reachable admin_hash t0 cs) as [Hwf Hok]. fold s in Hwf, Hok.
  destruct (Hok l Hl) as [K1 K2 _ _ _ _ _].
  destruct (transition_row _ _ l l' (run1_transition s c) Hwf Hl Hl' Hid)
    as [[-> E]|[(st & _ & _ & -> & E)|(a & _ & G1 & G2 & -> & E)]];
    rewrite E in Hn.
  - apply leb_refl_finite. rewrite K1.
    apply (ledger_in_range _ _ Hp Hn K2).
  - simpl. apply leb_refl_finite. rewrite K1.
    apply (ledger_in_range _ _ Hp Hn K2).
  - simpl. unfold Ledger.no_nan in Hn. rewrite forallb_app in Hn.
    apply andb_true_iff in Hn. destruct Hn as [Hn Ha]. simpl in Ha.
    rewrite andb_true_r, negb_true_iff in Ha.
    apply payment_in_range; try assumption.
    rewrite K1. apply (ledger_in_range _ _ Hp Hn K2).
Qed.

(** ** C2: when a payment is refused *)

(** The comparisons of two numbers that are not [nan] are each other's
    negation. *)
Lemma SFcompare_swap (x y : spec_float) :
  SFcompare y x = option_map CompOpp (SFcompare x y).
Proof.
  destruct x as [sx|sx| |sx mx ex], y as [sy|sy| |sy my ey]; simpl;
    try reflexivity; try (destruct sx; reflexivity);
    try (destruct sy; reflexivity);
    try (destruct sx, sy; reflexivity).
  destruct sx, sy; try reflexivity; f_equal;
    rewrite (Z.compare_antisym ex ey);
    destruct (ex ?= ey); simpl; try reflexivity;
    change (Pos.compare_cont Eq ?a ?b) with (a ?= b)%positive;
    rewrite (Pos.compare_antisym mx my);
    destruct (mx ?= my)%positive; reflexivity.
Qed.

Lemma leb_ltb (x y : float) :
  PrimFloat.is_nan x = false -> PrimFloat.is_nan y = false ->
  PrimFloat.leb x y = negb (PrimFloat.ltb y x).
Proof.
  unfold PrimFloat.is_nan. rewrite !negb_false_iff, !eqb_spec.
  rewrite leb_spec, ltb_spec. unfold SFleb, SFltb, SFeqb.
  rewrite (SFcompare_swap (Prim2SF x) (Prim2SF y)).
  destruct (Prim2SF x) as [sx|sx| |sx mx ex],
           (Prim2SF y) as [sy|sy| |sy my ey]; try discriminate; intros _ _;
    destruct (SFcompare _ _) as [[]|] eqn:E; try reflexivity;
    simpl in E; try discriminate;
    repeat match type of E with
           | context [if ?b then _ else _] => destruct b
           end; discriminate.
Qed.

(** For an amount that is a number, on a balance that is a number, the two
    guards of [Loan.make_payment] let through exactly the amounts with
    [0 < amount <= balance]. *)
Lemma guards_of_numbers (balance amount : float) :
  PrimFloat.is_nan balance = false -> PrimFloat.is_nan amount = false ->
  negb (PrimFloat.leb amount 0) && negb (PrimFloat.ltb balance amount)
  = PrimFloat.ltb 0 amount && PrimFloat.leb amount balance.
Proof.
  intros Hb Ha.
  rewrite (leb_ltb amount 0 Ha eq_refl), (leb_ltb amount balance Ha Hb).
  now rewrite negb_involutive.
Qed.

(** A payment either is applied, to an approved loan of the caller that the
    menu listed, with an amount that passed both guards, as one new payment
    row and the balance decreased by the amount; or it is refused and
    nothing is written. *)
Lemma payment_applied_or_refused (s : t) (choice_in : option Z)
    (amount_in : option float) (now : Z) :
  (snd (make_payment s choice_in amount_in now) <> Printed "Payment successful"
   /\ fst (make_payment s choice_in amount_in now) = s)
  \/ exists user n r amount,
       current_user s = Some user /\ choice_in = Some n
       /\ amount_in = Some amount
       /\ In r (Db.loans (db s))
       /\ Db.sql_eq (Loans.user_id r) (User.user_id user) = true
       /\ Loans.status r = "approved"
       /\ negb (PrimFloat.leb amount 0)
          && negb (PrimFloat.ltb (Loans.current_balance r) amount) = true
       /\ make_payment s choice_in amount_in now
          = (with_db (Ledger.pay amount now r (db s)) s,
             Printed "Payment successful").
Proof.
  destruct (make_payment_cases s choice_in amount_in now) as [Hu [[Hd Hr]|H]].
  - left. split; [assumption|].
    destruct (fst (make_payment s choice_in amount_in now)) as [d u].
    destruct s as [d0 u0]. simpl in *. congruence.
  - right. destruct H as (user & n & r & amount & H1 & H2 & H3 & _ & H5 & H6
                          & H7 & G1 & G2 & Hd & Hr).
    exists user, n, r, amount. repeat split; try assumption.
    + now rewrite G1, G2.
    + destruct (make_payment s choice_in amount_in now) as [[d u] rep].
      simpl in *. subst. unfold with_db. reflexivity.
Qed.




(** The slip in the guards: an amount of [nan] is neither greater than 0 nor
    at most the balance, and yet the payment is applied: the balance of the
    loan of 100.00 becomes [nan] and a payment row of [nan] is recorded. *)
Lemma nan_payment_applied :
  let r := make_payment Scenario.alice_100 (Some 1) (Some nan) 5 in
  PrimFloat.ltb 0 nan = false
  /\ PrimFloat.leb nan 100 = false
  /\ snd r = Printed "Payment successful"
  /\ Scenario.balances (db (fst r)) = [nan]
  /\ Scenario.paid_amounts (db (fst r)) = [nan]
  /\ map Loans.status (Db.loans (db (fst r))) = ["approved"].
Proof. vm_compute. repeat split. Qed.



(** ** C3: two payments at once *)

(** The statements of [Session.step], run without interruption, are
    [LoanApplicationSystem.make_payment]. *)
Lemma steps_make_payment (s : t) (choice_in : option Z)
    (amount_in : option float) (now : Z) :
  Session.steps 4 (current_user s)
                (Session.Start choice_in amount_in now) (db s)
  = (Session.Done (snd (make_payment s choice_in amount_in now)),
     db (fst (make_payment s choice_in amount_in now))).
Proof.
  unfold make_payment. cbn [Session.steps Session.step]. unfold Session.start.
  destruct (current_user s) as [user|]; [|reflexivity].
  destruct (Loan.get_user_loans (db s) (User.user_id user)) as [|l0 ls] eqn:El;
    [reflexivity|]. rewrite <- El.
  destruct choice_in as [n|]; [|reflexivity].
  destruct (_ && _); [|reflexivity].
  destruct (Py.index _ (n - 1)) as [loan|]; [|reflexivity].
  destruct (negb _); [reflexivity|].
  destruct amount_in as [amount|]; [|reflexivity].
  unfold Loan.make_payment.
  destruct (PrimFloat.leb amount 0); [reflexivity|].
  destruct (PrimFloat.ltb (Loan.current_balance loan) amount); [reflexivity|].
  cbn [Session.step].
  destruct (Loan.save _ (db s)) as [self2 d1]. cbn [Session.step].
  destruct (Payment.save _ d1) as [p d2].
  destruct (PrimFloat.eqb (Loan.current_balance self2) 0);
    cbn [Session.step]; [|reflexivity].
  destruct (Loan.save _ d2) as [self3 d3]. reflexivity.
Qed.

(** C3, as stated, fails: when both terminals read the balance 100.00 before
    either writes, both payments of 70.00 succeed, and two payment rows are
    recorded against a final balance of 30.00. *)
Lemma C3_both_payments_succeed :
  let c := Session.schedule Scenario.alice Scenario.two_terminals
             [false; true; false; false; true; true] in
  Scenario.balances (Session.shared Scenario.two_terminals) = [100%float]
  /\ Session.succeeded (Session.first c) = true
  /\ Session.succeeded (Session.second c) = true
  /\ Scenario.paid_amounts (Session.shared c) = [70; 70]%float
  /\ Scenario.balances (Session.shared c) = [30%float].
Proof. repeat split. Qed.

(** Once a call has printed its last line, its terminal has nothing left to
    execute. *)
Lemma step2_finished (user : option User.t) (c : Session.config)
    (who : bool) :
  Session.finished (if who then Session.second c else Session.first c) = true ->
  Session.step2 user c who = c.
Proof.
  destruct c as [d p1 p2], who; simpl; intros H.
  - destruct p2; try discriminate. reflexivity.
  - destruct p1; try discriminate. reflexivity.
Qed.

(** One more statement of a terminal leads from an interleaving to an
    interleaving, or that terminal is through. *)
Lemma interleavings_closed :
  forallb
    (fun w =>
       forallb
         (fun who : bool =>
            if in_dec (list_eq_dec bool_dec) (w ++ [who])%list
                      Scenario.interleavings
            then true
            else
              let c := Session.schedule Scenario.alice Scenario.two_terminals
                                        w in
              Session.finished
                (if who then Session.second c else Session.first c))
         [false; true])
    Scenario.interleavings = true.
Proof. vm_compute. reflexivity. Qed.

Lemma configs_reached (whos : list bool) :
  exists w, In w Scenario.interleavings
            /\ Session.schedule Scenario.alice Scenario.two_terminals whos
               = Session.schedule Scenario.alice Scenario.two_terminals w.
Proof.
  induction whos as [|who whos IH] using rev_ind.
  - exists []. split; [vm_compute; auto|reflexivity].
  - destruct IH as (w & Hw & E).
    unfold Session.schedule in *. rewrite fold_left_app, E. simpl.
    pose proof interleavings_closed as C.
    rewrite forallb_forall in C. specialize (C w Hw).
    rewrite forallb_forall in C.
    assert (In who [false; true]) as Hb by (destruct who; simpl; auto).
    specialize (C who Hb).
    destruct (in_dec (list_eq_dec bool_dec) (w ++ [who])%list
                     Scenario.interleavings) as [Hin|_].
    + exists (w ++ [who])%list. split; [assumption|].
      now rewrite fold_left_app.
    + exists w. split; [assumption|]. now apply step2_finished.
Qed.

(** What holds in every configuration that the two calls can reach. *)
Lemma configs_settled :
  Forall
    (fun c =>
       (Scenario.balances (Session.shared c) = [100%float]
        \/ Scenario.balances (Session.shared c) = [30%float])
       /\ (Session.finished (Session.first c)
           && Session.finished (Session.second c) = false
           \/ (Scenario.balances (Session.shared c) = [30%float]
               /\ ((Scenario.paid_amounts (Session.shared c) = [70%float]
                    /\ xorb (Session.succeeded (Session.first c))
                            (Session.succeeded (Session.second c)) = true)
                   \/ (Scenario.paid_amounts (Session.shared c)
                       = [70; 70]%float
                       /\ Session.succeeded (Session.first c) = true
                       /\ Session.succeeded (Session.second c) = true)))))
    Scenario.configs.
Proof.
  unfold Scenario.configs.
  repeat (constructor;
          [vm_compute;
           split; [first [left; reflexivity|right; reflexivity]|];
           first [left; reflexivity
                 |right; split; [reflexivity|];
                  first [left; split; reflexivity
                        |right; repeat split]]|]).
  constructor.
Qed.

(** C3, amended: whatever the order in which the statements of the two
    calls of 70.00 run against the balance 100.00, the stored balance is
    100.00 or 30.00 at every moment, never -40.00; and once both calls have
    returned the balance is 30.00 and either exactly one call succeeded and
    one payment row of 70.00 was recorded, or both succeeded and two payment
    rows of 70.00 were recorded. *)
Theorem C3_every_interleaving (whos : list bool) :
  let c := Session.schedule Scenario.alice Scenario.two_terminals whos in
  (Scenario.balances (Session.shared c) = [100%float]
   \/ Scenario.balances (Session.shared c) = [30%float])
  /\ (Session.finished (Session.first c)
      && Session.finished (Session.second c) = false
      \/ (Scenario.balances (Session.shared c) = [30%float]
          /\ ((Scenario.paid_amounts (Session.shared c) = [70%float]
               /\ xorb (Session.succeeded (Session.first c))
                       (Session.succeeded (Session.second c)) = true)
              \/ (Scenario.paid_amounts (Session.shared c) = [70; 70]%float
                  /\ Session.succeeded (Session.first c) = true
                  /\ Session.succeeded (Session.second c) = true)))).
Proof.
  intros c. destruct (configs_reached whos) as (w & Hw & E).
  unfold c. rewrite E.
  pose proof configs_settled as S. rewrite Forall_forall in S.
  apply (S (Session.schedule Scenario.alice Scenario.two_terminals w)).
  unfold Scenario.configs.
  change (In (Session.schedule Scenario.alice Scenario.two_terminals w)
             (map (Session.schedule Scenario.alice Scenario.two_terminals)
                  Scenario.interleavings)).
  now apply in_map.
Qed.

(** One call after the other: the second one is refused. *)
Lemma C3_one_after_the_other :
  let c := Session.schedule Scenario.alice Scenario.two_terminals
             [false; false; false; true; true; true] in
  Session.first c = Session.Done (Printed "Payment successful")
  /\ Session.second c
     = Session.Done (Printed "Payment exceeds current balance")
  /\ Scenario.paid_amounts (Session.shared c) = [70%float]
  /\ Scenario.balances (Session.shared c) = [30%float].
Proof. repeat split. Qed.

(** ** C4: the status moves forward *)



(** Deciding twice: the admin approves the only pending loan; a second
    decision finds no pending loan and changes nothing. *)
Lemma decide_twice :
  let s := run Scenario.fresh
               (Scenario.sign_up
                ++ [ApplyForLoan (Some 100%float) (Some 12) 2; Logout;
                    Login "admin" true; ApproveLoans (Some 1) "A"]) in
  map Loans.status (Db.loans (db s)) = ["approved"]
  /\ approve_loans s (Some 1) "R" = (s, Printed "No pending loans to approve.")
  /\ approve_loans s (Some 1) "A" = (s, Printed "No pending loans to approve.").
Proof. vm_compute. repeat split. Qed.

(** ** C5: paid exactly at balance zero *)






(** ** C6: asking for a loan *)





(** ** C7: the interest rate *)

(** For terms from -600 to 600 months, [term / 12] is the binary64 division
    of [float(term)] by 12.0. *)
Lemma int_truediv_is_float_division :
  forallb
    (fun term =>
       match Py.int_truediv term 12 with
       | inr q =>
           PrimFloat.Leibniz.eqb q (PrimFloat.div (Py.float_of_int term) 12)
       | inl _ => false
       end)
    (map (fun n => Z.of_nat n - 600) (seq 0 1201)) = true.
Proof. vm_compute. reflexivity. Qed.


(** ** C8: decimal amounts and exact comparison *)





(** ** C9: most recent first *)

Lemma sorted_map {A B} (f : A -> B) (key : A -> Z) (key' : B -> Z)
    (l : list A) :
  (forall x, key' (f x) = key x) ->
  StronglySorted (Db.newer_first key) l ->
  StronglySorted (Db.newer_first key') (map f l).
Proof.
  intros E. induction 1 as [|x l Hs IH Hx]; simpl; constructor.
  - assumption.
  - rewrite Forall_forall in *. intros y Hy. apply in_map_iff in Hy.
    destruct Hy as (z & <- & Hz). specialize (Hx z Hz).
    unfold Db.newer_first in *. now rewrite !E.
Qed.

(** The loans of a user come most recent first, and they are the user's
    rows of the table, each once. *)
Lemma get_user_loans_newest_first (d : Db.t) (u : option Z) :
  StronglySorted (Db.newer_first Loan.created_at) (Loan.get_user_loans d u)
  /\ Permutation (Loan.get_user_loans d u)
       (map Loan.of_row
            (filter (fun r => Db.sql_eq (Loans.user_id r) u) (Db.loans d))).
Proof.
  unfold Loan.get_user_loans. split.
  - apply (sorted_map _ Loans.created_at); [reflexivity|].
    apply order_by_desc_sorted.
  - apply Permutation_map, Permutation_sym, order_by_desc_perm.
Qed.


(** The list of all loans of [view_all_loans] comes most recent first. *)
Lemma all_loans_newest_first (d : Db.t) :
  StronglySorted (Db.newer_first (fun lu => Loans.created_at (fst lu)))
                 (all_loans d).
Proof. apply order_by_desc_sorted. Qed.


(** ** C10: what a payment leaves alone *)

(** Row by row: the loans after a payment on the loan of row [r]. *)
Lemma paid_rows (r : Loans.row) (a : float) (l : list Loans.row) :
  (forall x, In x l -> Loans.loan_id x = Loans.loan_id r -> x = r) ->
  Forall2
    (fun x x' =>
       Loans.loan_id x' = Loans.loan_id x
       /\ Loans.user_id x' = Loans.user_id x
       /\ Loans.amount x' = Loans.amount x
       /\ Loans.term x' = Loans.term x
       /\ Loans.interest_rate x' = Loans.interest_rate x
       /\ Loans.created_at x' = Loans.created_at x
       /\ (x <> r -> x' = x))
    l
    (map (fun x => if Loans.loan_id x =? Loans.loan_id r
                   then Ledger.paid_down a r else x) l).
Proof.
  induction l as [|x l IH]; intros U; simpl; constructor.
  - destruct (Loans.loan_id x =? Loans.loan_id r) eqn:Ex.
    + apply Z.eqb_eq in Ex. rewrite (U x (or_introl eq_refl) Ex).
      simpl. repeat split. intros C. now contradiction C.
    + repeat split.
  - apply IH. intros y Hy. apply U. now right.
Qed.

(** C10: a successful payment (menu entries run one at a time) rewrites the
    row of the loan with the same key, owner, principal, term, rate and
    creation time, leaves the row of every other loan and every user as it
    is, and appends exactly one payment row, with the amount paid and the
    key of the loan, after the payment rows that were there, which are
    unchanged. *)
Theorem C10_payment_frame (admin_hash : string) (t0 : Z) (cs : list command)
    (choice_in : option Z) (amount_in : option float) (now : Z) :
  let s := run (__init__ None admin_hash t0) cs in
  let s' := fst (make_payment s choice_in amount_in now) in
  snd (make_payment s choice_in amount_in now) = Printed "Payment successful" ->
  exists r amount,
    In r (Db.loans (db s)) /\ amount_in = Some amount
    /\ Forall2
         (fun x x' =>
            Loans.loan_id x' = Loans.loan_id x
            /\ Loans.user_id x' = Loans.user_id x
            /\ Loans.amount x' = Loans.amount x
            /\ Loans.term x' = Loans.term x
            /\ Loans.interest_rate x' = Loans.interest_rate x
            /\ Loans.created_at x' = Loans.created_at x
            /\ (x <> r -> x' = x))
         (Db.loans (db s)) (Db.loans (db s'))
    /\ Db.payments (db s')
       = (Db.payments (db s)
          ++ [Payments.mk (Db.payments_seq (db s) + 1)
                          (Some (Loans.loan_id r)) amount now])%list
    /\ Db.users (db s') = Db.users (db s)
    /\ current_user s' = current_user s.
Proof.
  intros s s' Hok.
  destruct (payment_applied_or_refused s choice_in amount_in now)
    as [[H _]|H]; [contradiction|].
  destruct H as (user & n & r & amount & _ & _ & Ha & Hr & _ & _ & _ & E).
  exists r, amount. unfold s'. rewrite E. simpl.
  repeat split; try assumption.
  destruct (invariant_reachable admin_hash t0 cs) as [Hwf _]. fold s in Hwf.
  apply wf_iff in Hwf. destruct Hwf as (N & _).
  apply paid_rows. intros x Hx Ex. eapply nodup_unique; eauto.
Qed.

Lemma C10_payment_frame_witness :
  let s := run (__init__ None "h0" 0) (Scenario.open_loan 100 12) in
  let s' := fst (make_payment s (Some 1) (Some 40%float) 5) in
  snd (make_payment s (Some 1) (Some 40%float) 5) = Printed "Payment successful"
  /\ exists r amount,
       In r (Db.loans (db s)) /\ Some 40%float = Some amount
       /\ Forall2
            (fun x x' =>
               Loans.loan_id x' = Loans.loan_id x
               /\ Loans.user_id x' = Loans.user_id x
               /\ Loans.amount x' = Loans.amount x
               /\ Loans.term x' = Loans.term x
               /\ Loans.interest_rate x' = Loans.interest_rate x
               /\ Loans.created_at x' = Loans.created_at x
               /\ (x <> r -> x' = x))
            (Db.loans (db s)) (Db.loans (db s'))
       /\ Db.payments (db s')
          = (Db.payments (db s)
             ++ [Payments.mk (Db.payments_seq (db s) + 1)
                             (Some (Loans.loan_id r)) amount 5])%list
       /\ Db.users (db s') = Db.users (db s)
       /\ current_user s' = current_user s.
Proof.
  intros s s'.
  assert (snd (make_payment s (Some 1) (Some 40%float) 5)
          = Printed "Payment successful") as H by (vm_compute; reflexivity).
  exact (conj H (C10_payment_frame "h0" 0 (Scenario.open_loan 100 12)
                   (Some 1) (Some 40%float) 5 H)).
Defined.

(** ** Accounts, sessions and references *)

Lemma state_eq (s s' : t) :
  db s' = db s -> current_user s' = current_user s -> s' = s.
Proof. destruct s, s'. simpl. now intros -> ->. Qed.

Lemma state_with_db (s s' : t) (d : Db.t) :
  db s' = d -> current_user s' = current_user s -> s' = with_db d s.
Proof. destruct s, s'. simpl. now intros -> ->. Qed.

(** Every turn of the loop of [run] is one of the steps of
    [Accounts.step]. *)
Lemma run1_step (s : t) (c : command) : Accounts.step s (run1 s c).
Proof.
  destruct c; unfold run1; destruct (current_user s) as [u|] eqn:Eu;
    try apply Accounts.s_none.
  - unfold login, User.get_by_username.
    destruct (find _ (Db.users (db s))) as [r|] eqn:Ef; simpl;
      [|apply Accounts.s_none].
    destruct password_ok; simpl; [|apply Accounts.s_none].
    apply Accounts.s_login; [assumption|]. now apply find_some in Ef.
  - unfold register.
    destruct (User.get_by_username (db s) username) eqn:Eg;
      [apply Accounts.s_none|].
    destruct (negb _); [apply Accounts.s_none|].
    now apply Accounts.s_register.
  - apply Accounts.s_logout.
  - destruct (apply_for_loan_cases s amount_in term_in now) as [Hu [Hd|H]].
    + rewrite (state_eq s _ Hd Hu). apply Accounts.s_none.
    + destruct H as (user & amount & term & q & Hc & _ & _ & Hq & Hd).
      rewrite (state_with_db s _ _ Hd Hu). now apply Accounts.s_apply.
  - destruct (make_payment_cases s choice_in amount_in now)
      as [Hu [[Hd _]|H]].
    + rewrite (state_eq s _ Hd Hu). apply Accounts.s_none.
    + destruct H as (user & n & r & amount & Hc & _ & _ & _ & Hr & Ho & Hs
                     & G1 & G2 & Hd & _).
      rewrite (state_with_db s _ _ Hd Hu). now apply (Accounts.s_pay s user).
  - unfold is_admin. rewrite Eu.
    destruct (User.is_admin u) eqn:Ea; [|apply Accounts.s_none].
    destruct (approve_loans_cases s choice_in action_in) as [Hu [Hd|H]].
    + rewrite (state_eq s _ Hd Hu). apply Accounts.s_none.
    + destruct H as (r & st & Hr & Hs & Hst & Hd).
      rewrite (state_with_db s _ _ Hd Hu).
      now apply (Accounts.s_decide s u).
Qed.

Lemma get_by_username_None (d : Db.t) (name : string) :
  User.get_by_username d name = None ->
  ~ In name (map Users.username (Db.users d)).
Proof.
  unfold User.get_by_username. intros H Hin.
  apply in_map_iff in Hin. destruct Hin as (r & E & Hr).
  destruct (find _ (Db.users d)) as [x|] eqn:Ef; [discriminate|].
  apply (find_none _ _ Ef) in Hr. rewrite E, String.eqb_refl in Hr.
  discriminate.
Qed.

Lemma step_transition (s s' : t) :
  Accounts.step s s' -> Ledger.transition (db s) (db s').
Proof.
  intros [|r Hu Hr| |name hash now Hu Hg|user amount term q now Hu Hq
          |user r st Hu Ha Hr Hs Hst|user r a now Hu Hr Ho Hs G1 G2]; simpl.
  - apply Ledger.t_none.
  - apply Ledger.t_none.
  - apply Ledger.t_none.
  - apply Ledger.t_register.
  - now apply Ledger.t_apply.
  - now apply Ledger.t_decide.
  - now apply Ledger.t_pay.
Qed.


Lemma references_step (s s' : t) :
  Accounts.step s s' -> Accounts.references (db s) ->
  Accounts.session_in_table s -> Accounts.references (db s').
Proof.
  unfold Accounts.references, Accounts.session_in_table.
  rewrite !Forall_forall.
  intros [|r Hu Hr| |name hash now Hu Hg|user amount term q now Hu Hq
          |user r st Hu Ha Hr Hs Hst|user r a now Hu Hr Ho Hs G1 G2]
         [RL RP] S; simpl; try (split; assumption).
  - split; [|assumption]. intros l Hl. destruct (RL l Hl) as (u & Hin & E).
    exists u. split; [apply in_or_app; now left|assumption].
  - rewrite Hu in S. destruct S as (ur & Hur & ->). split.
    + intros l Hl. apply in_app_or in Hl. destruct Hl as [Hl|[<-|[]]].
      * now apply RL.
      * exists ur. split; [assumption|reflexivity].
    + intros p Hp. destruct (RP p Hp) as (l & Hl & E).
      exists l. split; [apply in_or_app; now left|assumption].
  - split.
    + intros l Hl. apply in_map_iff in Hl. destruct Hl as (y & <- & Hy).
      destruct (RL y Hy) as (u & Hin & E). exists u. split; [assumption|].
      now destruct (Loans.loan_id y =? Loans.loan_id r).
    + intros p Hp. destruct (RP p Hp) as (l & Hl & E).
      exists (if Loans.loan_id l =? Loans.loan_id r
              then Loans.with_status st l else l).
      split; [apply in_map_iff; eauto|].
      now destruct (Loans.loan_id l =? Loans.loan_id r).
  - split.
    + intros l Hl. apply in_map_iff in Hl. destruct Hl as (y & <- & Hy).
      destruct (Loans.loan_id y =? Loans.loan_id r); [|now apply RL].
      destruct (RL r Hr) as (u & Hin & E). exists u. now split.
    + intros p Hp. apply in_app_or in Hp.
      assert (In (Ledger.paid_down a r)
                 (map (fun x => if Loans.loan_id x =? Loans.loan_id r
                                then Ledger.paid_down a r else x)
                      (Db.loans (db s)))) as Hpaid.
      { apply in_map_iff. exists r. now rewrite Z.eqb_refl. }
      destruct Hp as [Hp|[<-|[]]].
      * destruct (RP p Hp) as (l & Hl & E).
        exists (if Loans.loan_id l =? Loans.loan_id r
                then Ledger.paid_down a r else l).
        split; [apply in_map_iff; eauto|].
        destruct (Loans.loan_id l =? Loans.loan_id r) eqn:El; [|assumption].
        apply Z.eqb_eq in El. simpl. now rewrite <- El.
      * exists (Ledger.paid_down a r). now split.
Qed.

Lemma users_step (s s' : t) :
  Accounts.step s s' ->
  Db.users (db s') = Db.users (db s)
  \/ exists name hash now,
       current_user s = None
       /\ User.get_by_username (db s) name = None
       /\ Db.users (db s')
          = (Db.users (db s)
             ++ [Users.mk (Db.users_seq (db s) + 1) name hash false now])%list.
Proof.
  intros [|r Hu Hr| |name hash now Hu Hg|user amount term q now Hu Hq
          |user r st Hu Ha Hr Hs Hst|user r a now Hu Hr Ho Hs G1 G2]; simpl;
    try (now left).
  right. exists name, hash, now. auto.
Qed.

Lemma session_step (s s' : t) :
  Accounts.step s s' -> Accounts.session_in_table s ->
  Accounts.session_in_table s'.
Proof.
  unfold Accounts.session_in_table.
  intros [|r Hu Hr| |name hash now Hu Hg|user amount term q now Hu Hq
          |user r st Hu Ha Hr Hs Hst|user r a now Hu Hr Ho Hs G1 G2] S;
    simpl; try assumption; try exact I.
  - eauto.
  - now rewrite Hu.
Qed.

Lemma accounts_step (s s' : t) :
  Accounts.step s s' -> Accounts.invariant s -> Accounts.invariant s'.
Proof.
  intros T [L N A R S]. split.
  - apply (invariant_transition (db s)); [now apply step_transition|exact L].
  - destruct (users_step s s' T) as [->|(name & hash & now & _ & Hg & ->)];
      [exact N|].
    rewrite map_app. simpl. apply NoDup_app_remove_l with (l := []).
    simpl. apply Permutation_NoDup with (l := name :: map Users.username
                                                    (Db.users (db s))).
    + apply Permutation_cons_append.
    + constructor; [now apply get_by_username_None|exact N].
  - unfold Accounts.seeded_admin in *.
    destruct (users_step s s' T) as [->|(name & hash & now & _ & Hg & ->)];
      [exact A|].
    apply Forall_app. split; [exact A|]. constructor; [|constructor].
    simpl. discriminate.
  - now apply (references_step s).
  - now apply (session_step s).
Qed.

Lemma accounts_run (s : t) (cs : list command) :
  Accounts.invariant s -> Accounts.invariant (run s cs).
Proof.
  revert s. induction cs as [|c cs IH]; intros s H; [exact H|].
  simpl. apply IH. apply (accounts_step s); [apply run1_step|exact H].
Qed.

Lemma accounts_init (admin_hash : string) (now : Z) :
  Accounts.invariant (__init__ None admin_hash now).
Proof.
  split.
  - apply invariant_init.
  - simpl. constructor; [intros []|constructor].
  - constructor; [reflexivity|constructor].
  - split; constructor.
  - exact I.
Qed.

Lemma accounts_reachable (admin_hash : string) (now : Z)
    (cs : list command) :
  Accounts.invariant (run (__init__ None admin_hash now) cs).
Proof. apply accounts_run, accounts_init. Qed.

Lemma find_unique (l : list Users.row) (x : Users.row) :
  NoDup (map Users.username l) -> In x l ->
  find (fun r => String.eqb (Users.username r) (Users.username x)) l = Some x.
Proof.
  induction l as [|y l IH]; simpl; intros N H; [contradiction|].
  inversion N as [|? ? Hy N']; subst.
  destruct H as [->|H]; [now rewrite String.eqb_refl|].
  destruct (String.eqb (Users.username y) (Users.username x)) eqn:E.
  - apply String.eqb_eq in E. exfalso. apply Hy. rewrite E.
    now apply in_map.
  - now apply IH.
Qed.

(** X1: after any sequence of menu entries on a fresh installation, no two
    accounts have the same username ([register] looks the name up before it
    inserts), so looking an account up by its name gives that very
    account. *)
Theorem usernames_unique (admin_hash : string) (t0 : Z) (cs : list command) :
  NoDup (map Users.username
             (Db.users (db (run (__init__ None admin_hash t0) cs))))
  /\ Forall (fun r => User.get_by_username
                        (db (run (__init__ None admin_hash t0) cs))
                        (Users.username r)
                      = Some (User.of_row r))
            (Db.users (db (run (__init__ None admin_hash t0) cs))).
Proof.
  destruct (accounts_reachable admin_hash t0 cs) as [_ N _ _ _].
  split; [exact N|]. apply Forall_forall. intros r Hr.
  unfold User.get_by_username. now rewrite (find_unique _ r N Hr).
Qed.

(** X2: on a fresh installation the only account with [is_admin] set is the
    one named "admin" that [_initialize_database] inserts ([register] always
    creates plain accounts), and the entry "Approve/Reject Loans" changes
    the database only when that account is logged in. *)
Theorem decisions_by_seeded_admin (admin_hash : string) (t0 : Z)
    (cs : list command) (choice_in : option Z) (action_in : string) :
  Accounts.seeded_admin (db (run (__init__ None admin_hash t0) cs))
  /\ (db (run1 (run (__init__ None admin_hash t0) cs)
               (ApproveLoans choice_in action_in))
      = db (run (__init__ None admin_hash t0) cs)
      \/ exists u,
           current_user (run (__init__ None admin_hash t0) cs) = Some u
           /\ User.username u = "admin" /\ User.is_admin u = true).
Proof.
  destruct (accounts_reachable admin_hash t0 cs) as [_ _ A _ S].
  split; [exact A|].
  set (s := run (__init__ None admin_hash t0) cs) in *.
  unfold run1, is_admin. unfold Accounts.session_in_table in S.
  destruct (current_user s) as [u|] eqn:Eu; [|now left].
  destruct (User.is_admin u) eqn:Ea; [|now left].
  right. exists u. split; [reflexivity|]. split; [|exact Ea].
  destruct S as (r & Hr & ->). unfold Accounts.seeded_admin in A.
  rewrite Forall_forall in A. exact (A r Hr Ea).
Qed.

(** X3: the references between the tables always hold on a fresh
    installation: every loan belongs to an account that is in [users], every
    payment to a loan that is in [loans], and whoever is logged in is an
    account of the table. *)
Theorem references_hold (admin_hash : string) (t0 : Z) (cs : list command) :
  Accounts.references (db (run (__init__ None admin_hash t0) cs))
  /\ Accounts.session_in_table (run (__init__ None admin_hash t0) cs).
Proof.
  destruct (accounts_reachable admin_hash t0 cs) as [_ _ _ R S].
  now split.
Qed.





Lemma step_others (s s' : t) (x : Loans.row) :
  Accounts.step s s' -> Ledger.wf (db s) = true -> In x (Db.loans (db s)) ->
  Db.sql_eq (Loans.user_id x) (Accounts.session_id s) = true
  \/ In x (Db.loans (db s'))
  \/ (is_admin s = true /\ Loans.status x = "pending"
      /\ exists st, (st = "approved" \/ st = "rejected")
                    /\ In (Loans.with_status st x) (Db.loans (db s'))).
Proof.
  intros T W Hx. apply wf_iff in W. destruct W as (N & _).
  destruct T as [|r Hu Hr| |name hash now Hu Hg|user amount term q now Hu Hq
                 |user r st Hu Ha Hr Hs Hst|user r a now Hu Hr Ho Hs G1 G2];
    simpl; try (right; left; assumption).
  - right. left. apply in_or_app. now left.
  - destruct (Loans.loan_id x =? Loans.loan_id r) eqn:E.
    + apply Z.eqb_eq in E.
      assert (x = r) by (eapply nodup_unique; eauto). subst r.
      right. right. unfold is_admin. rewrite Hu.
      split; [exact Ha|]. split; [exact Hs|]. exists st.
      split; [exact Hst|]. apply in_map_iff. exists x.
      now rewrite Z.eqb_refl.
    + right. left. apply in_map_iff. exists x. now rewrite E.
  - destruct (Loans.loan_id x =? Loans.loan_id r) eqn:E.
    + apply Z.eqb_eq in E.
      assert (x = r) by (eapply nodup_unique; eauto). subst r.
      left. unfold Accounts.session_id. now rewrite Hu.
    + right. left. apply in_map_iff. exists x. now rewrite E.
Qed.

(** X5: on a fresh installation, whatever menu entry runs next (entries run
    one at a time), the row of a loan that does not belong to whoever is
    logged in is left exactly as it is, with one exception: the administrator
    deciding that loan while it is pending, which changes its status and
    nothing else.  Nobody pays, or alters in any other way, another
    account's loan. *)
Theorem other_accounts_loans_untouched (admin_hash : string) (t0 : Z)
    (cs : list command) (c : command) :
  Forall
    (fun x =>
       Db.sql_eq (Loans.user_id x)
                 (Accounts.session_id (run (__init__ None admin_hash t0) cs))
       = true
       \/ In x (Db.loans (db (run1 (run (__init__ None admin_hash t0) cs) c)))
       \/ (is_admin (run (__init__ None admin_hash t0) cs) = true
           /\ Loans.status x = "pending"
           /\ exists st,
                (st = "approved" \/ st = "rejected")
                /\ In (Loans.with_status st x)
                      (Db.loans (db (run1 (run (__init__ None admin_hash t0)
                                               cs) c)))))
    (Db.loans (db (run (__init__ None admin_hash t0) cs))).
Proof.
  apply Forall_forall. intros x Hx.
  destruct (accounts_reachable admin_hash t0 cs) as [[W _] _ _ _ _].
  apply step_others; [apply run1_step|exact W|exact Hx].
Qed.

(** X16: what [check_balance] shows.  It shows loans only to somebody who is
    logged in and has at least one; the loans shown are exactly the rows of
    [loans] whose owner is that account, each once, most recent first.
    Otherwise it prints "Please login first." (nobody logged in) or "You
    have no active loans." (no row with that owner). *)
Theorem check_balance_lists_own_loans (s : t) :
  match Accounts.check_balance s with
  | Accounts.Balances loans =>
      exists user,
        current_user s = Some user /\ loans <> []
        /\ StronglySorted (Db.newer_first Loan.created_at) loans
        /\ Permutation loans
             (map Loan.of_row
                  (filter (fun r => Db.sql_eq (Loans.user_id r)
                                              (User.user_id user))
                          (Db.loans (db s))))
  | Accounts.Nothing line =>
      (current_user s = None /\ line = "Please login first.")
      \/ (exists user,
            current_user s = Some user
            /\ filter (fun r => Db.sql_eq (Loans.user_id r)
                                          (User.user_id user))
                      (Db.loans (db s)) = []
            /\ line = "You have no active loans.")
  end.
Proof.
  unfold Accounts.check_balance.
  destruct (current_user s) as [user|]; [|now left].
  destruct (get_user_loans_newest_first (db s) (User.user_id user)) as [S P].
  destruct (Loan.get_user_loans (db s) (User.user_id user)) as [|l ls].
  - right. exists user. split; [reflexivity|]. split; [|reflexivity].
    apply Permutation_nil in P.
    destruct (filter _ (Db.loans (db s))); [reflexivity|discriminate].
  - exists user. repeat split; try assumption. discriminate.
Qed.

Lemma contract_rows (r r' : Loans.row) (l : list Loans.row) :
  Accounts.contract r' = Accounts.contract r ->
  (forall x, In x l -> Loans.loan_id x = Loans.loan_id r -> x = r) ->
  map Accounts.contract
      (map (fun x => if Loans.loan_id x =? Loans.loan_id r then r' else x) l)
  = map Accounts.contract l.
Proof.
  intros E U. rewrite map_map. apply map_ext_in. intros x Hx.
  destruct (Loans.loan_id x =? Loans.loan_id r) eqn:Ex; [|reflexivity].
  apply Z.eqb_eq in Ex. now rewrite (U x Hx Ex).
Qed.

(** X17: on a fresh installation no menu entry ever changes the key, the
    owner, the principal, the term, the interest rate or the creation time
    of a loan that exists: after any entry these columns of the table are
    what they were, loan by loan in the same order, with at most one new
    loan after them. *)
Theorem loan_contract_never_changes (admin_hash : string) (t0 : Z)
    (cs : list command) (c : command) :
  exists ls,
    map Accounts.contract
        (Db.loans (db (run1 (run (__init__ None admin_hash t0) cs) c)))
    = (map Accounts.contract
           (Db.loans (db (run (__init__ None admin_hash t0) cs))) ++ ls)%list
    /\ (List.length ls <= 1)%nat.
Proof.
  destruct (invariant_reachable admin_hash t0 cs) as [W _].
  set (s := run (__init__ None admin_hash t0) cs) in *.
  apply wf_iff in W. destruct W as (N & _).
  destruct (run1_transition s c) as [|name hash now|uid amount term q now Hq
                                     |r st Hr Hs Hst|r a now Hr Hs G1 G2].
  - exists []. rewrite app_nil_r. split; [reflexivity|simpl; lia].
  - exists []. rewrite app_nil_r. split; [reflexivity|simpl; lia].
  - eexists. simpl. rewrite map_app. split; [reflexivity|simpl; lia].
  - exists []. rewrite app_nil_r. split; [|simpl; lia]. simpl.
    rewrite map_map. apply map_ext. intros x.
    now destruct (Loans.loan_id x =? Loans.loan_id r).
  - exists []. rewrite app_nil_r. split; [|simpl; lia]. simpl.
    apply contract_rows; [reflexivity|].
    intros x Hx Ex. eapply nodup_unique; eauto.
Qed.

(** ** Registration, login and lookups *)







Lemma sql_eq_None (a : option Z) : Db.sql_eq a None = false.
Proof. now destruct a. Qed.

Lemma filter_nothing {A} (f : A -> bool) (l : list A) :
  (forall x, f x = false) -> filter f l = [].
Proof. intros H. induction l as [|x l IH]; simpl; [|rewrite H]; auto. Qed.

Lemma find_nothing {A} (f : A -> bool) (l : list A) :
  (forall x, f x = false) -> find f l = None.
Proof. intros H. induction l as [|x l IH]; simpl; [|rewrite H]; auto. Qed.

(** X8: a key that is [None] goes to the query as NULL and matches no row:
    the loans of user [None], the payments of loan [None] and the account or
    loan with key [None] are always empty, and a loan listed for a user
    carries that user's key. *)
Theorem null_key_matches_nothing (d : Db.t) (u : option Z) :
  Loan.get_user_loans d None = []
  /\ Payment.get_loan_payments d None = []
  /\ Loan.get_by_id d None = None
  /\ User.get_by_id d None = None
  /\ Forall (fun loan => Loan.user_id loan = u /\ u <> None)
            (Loan.get_user_loans d u).
Proof.
  unfold Loan.get_user_loans, Payment.get_loan_payments, Loan.get_by_id,
    User.get_by_id.
  rewrite !filter_nothing by (intros x; apply sql_eq_None).
  rewrite !find_nothing by (intros x; apply sql_eq_None). simpl.
  repeat split.
  apply Forall_forall. intros loan H. apply in_map_iff in H.
  destruct H as (r & <- & H). apply in_order_by_desc, filter_In in H.
  destruct H as [_ H]. simpl.
  destruct (Loans.user_id r) as [a|], u as [b|]; try discriminate.
  simpl in H. apply Z.eqb_eq in H. subst. split; [reflexivity|discriminate].
Qed.

(** ** Decisions and listings *)






Lemma find_map_key (i : Z) (g : Loans.row -> Loans.row)
    (l : list Loans.row) :
  (forall x, Loans.loan_id (g x) = Loans.loan_id x) ->
  find (fun r => Loans.loan_id r =? i) (map g l)
  = option_map g (find (fun r => Loans.loan_id r =? i) l).
Proof.
  intros H. induction l as [|x l IH]; simpl; [reflexivity|].
  rewrite H. now destruct (Loans.loan_id x =? i).
Qed.

(** X10: a call of [approve_loans] on a database whose loan keys are
    distinct leaves the accounts, the payments and the session as they are,
    and for every loan key a lookup by that key afterwards gives the same
    loan as before or, for the one loan decided, a loan that was pending
    with nothing but its status changed, to approved or rejected. *)
Theorem decision_changes_status_only (s : t) (choice_in : option Z)
    (action_in : string) (i : Z) :
  Ledger.wf (db s) = true ->
  Db.users (db (fst (approve_loans s choice_in action_in))) = Db.users (db s)
  /\ Db.payments (db (fst (approve_loans s choice_in action_in)))
     = Db.payments (db s)
  /\ current_user (fst (approve_loans s choice_in action_in))
     = current_user s
  /\ (Loan.get_by_id (db (fst (approve_loans s choice_in action_in)))
                     (Some i)
      = Loan.get_by_id (db s) (Some i)
      \/ exists loan st,
           Loan.get_by_id (db s) (Some i) = Some loan
           /\ Loan.status loan = "pending"
           /\ (st = "approved" \/ st = "rejected")
           /\ Loan.get_by_id (db (fst (approve_loans s choice_in action_in)))
                             (Some i)
              = Some (Loan.with_status st loan)).
Proof.
  intros W. apply wf_iff in W. destruct W as (N & _).
  destruct (approve_loans_cases s choice_in action_in) as [Hu [->|H]];
    [repeat split; auto|].
  destruct H as (r & st & Hr & Hs & Hst & ->). simpl.
  repeat split; [exact Hu|].
  unfold Loan.get_by_id. simpl.
  rewrite find_map_key by (intros x; now destruct (Loans.loan_id x =? _)).
  destruct (find _ (Db.loans (db s))) as [y|] eqn:Ef; simpl; [|now left].
  apply find_some in Ef. destruct Ef as [Hy Ey].
  destruct (Loans.loan_id y =? Loans.loan_id r) eqn:E; [|now left].
  apply Z.eqb_eq in E.
  assert (y = r) by (eapply nodup_unique; eauto). subst y.
  right. exists (Loan.of_row r), st. repeat split; assumption.
Qed.

Lemma decision_changes_status_only_witness :
  Ledger.wf (db Scenario.two_pending) = true
  /\ (Loan.get_by_id (db (fst (approve_loans Scenario.two_pending (Some 1)
                                             "a"))) (Some 1)
      = Loan.get_by_id (db Scenario.two_pending) (Some 1)
      \/ exists loan st,
           Loan.get_by_id (db Scenario.two_pending) (Some 1) = Some loan
           /\ Loan.status loan = "pending"
           /\ (st = "approved" \/ st = "rejected")
           /\ Loan.get_by_id (db (fst (approve_loans Scenario.two_pending
                                                     (Some 1) "a"))) (Some 1)
              = Some (Loan.with_status st loan)).
Proof.
  exact (conj eq_refl
              (proj2 (proj2 (proj2
                 (decision_changes_status_only Scenario.two_pending (Some 1)
                    "a" 1 eq_refl))))).
Defined.


(** X12: one menu entry never deletes anything and inserts at most one row
    in all: afterwards the table of accounts and the table of payments are
    the old ones with at most one row appended (no account and no payment
    is ever rewritten), and the loans are the old keys in the old order with
    at most one new key appended. *)
Theorem tables_only_grow (s : t) (c : command) :
  exists us ls ps,
    Db.users (db (run1 s c)) = (Db.users (db s) ++ us)%list
    /\ map Loans.loan_id (Db.loans (db (run1 s c)))
       = (map Loans.loan_id (Db.loans (db s)) ++ ls)%list
    /\ Db.payments (db (run1 s c)) = (Db.payments (db s) ++ ps)%list
    /\ (List.length us + List.length ls + List.length ps <= 1)%nat.
Proof.
  assert (forall (r r' : Loans.row) l,
             Loans.loan_id r' = Loans.loan_id r ->
             map Loans.loan_id
                 (map (fun x => if Loans.loan_id x =? Loans.loan_id r
                                then r' else x) l)
             = map Loans.loan_id l) as K1.
  { intros r r' l E. rewrite map_map. apply map_ext. intros x.
    destruct (Loans.loan_id x =? Loans.loan_id r) eqn:Ex; [|reflexivity].
    apply Z.eqb_eq in Ex. congruence. }
  assert (forall i (g : Loans.row -> Loans.row) l,
             (forall x, Loans.loan_id (g x) = Loans.loan_id x) ->
             map Loans.loan_id
                 (map (fun x => if Loans.loan_id x =? i then g x else x) l)
             = map Loans.loan_id l) as K2.
  { intros i g l E. rewrite map_map. apply map_ext. intros x.
    destruct (Loans.loan_id x =? i); [apply E|reflexivity]. }
  destruct (run1_transition s c) as [|name hash now|uid amount term q now Hq
                                     |r st Hr Hs Hst|r a now Hr Hs G1 G2].
  - exists [], [], []. rewrite !app_nil_r. repeat split. simpl. lia.
  - exists [Users.mk (Db.users_seq (db s) + 1) name hash false now], [], [].
    simpl. rewrite !app_nil_r. repeat split. lia.
  - exists [], [Db.loans_seq (db s) + 1], []. simpl.
    rewrite !app_nil_r, map_app. repeat split. lia.
  - exists [], [], []. simpl. rewrite !app_nil_r, K2 by reflexivity.
    repeat split. lia.
  - exists [], [],
      [Payments.mk (Db.payments_seq (db s) + 1) (Some (Loans.loan_id r)) a
                   now].
    simpl. rewrite !app_nil_r, K1 by reflexivity. repeat split. lia.
Qed.

(** ** The range of the interest rate *)

(** Rounding a non-negative value gives a number of the sign asked for. *)
Lemma binary_round_aux_sign (sx : bool) (mx ex : Z) (lx : location) :
  0 <= mx ->
  binary_round_aux prec emax sx mx ex lx = S754_zero sx
  \/ binary_round_aux prec emax sx mx ex lx = S754_infinity sx
  \/ exists m e, binary_round_aux prec emax sx mx ex lx = S754_finite sx m e.
Proof.
  intros Hx. unfold binary_round_aux, shr_fexp.
  assert (exists r s, shr_record_of_loc mx lx = Build_shr_record mx r s)
    as (r & s & ->) by (destruct lx as [|[]]; simpl; eauto).
  destruct (shr_m_e mx r s ex (fexp (Zdigits2 mx + ex) - ex) Hx) as [M1 _].
  destruct (shr (Build_shr_record mx r s) ex (fexp (Zdigits2 mx + ex) - ex))
    as [mrs1 e1].
  cbn [fst] in M1.
  set (m1r := round_nearest_even (shr_m mrs1) (loc_of_shr_record mrs1)).
  assert (0 <= m1r) as Hr.
  { pose proof (round_nearest_even_bounds (shr_m mrs1)
                                          (loc_of_shr_record mrs1)) as B.
    fold m1r in B.
    assert (0 <= shr_m mrs1); [|lia].
    rewrite M1. apply Z.div_pos; [lia|apply pow2_pos; lia]. }
  cbn [shr_record_of_loc].
  destruct (shr_m_e m1r false false e1 (fexp (Zdigits2 m1r + e1) - e1) Hr)
    as [M2 _].
  destruct (shr (Build_shr_record m1r false false) e1
                (fexp (Zdigits2 m1r + e1) - e1)) as [mrs2 e2].
  cbn [fst] in M2.
  assert (0 <= shr_m mrs2) as H2
    by (rewrite M2; apply Z.div_pos; [lia|apply pow2_pos; lia]).
  destruct (shr_m mrs2) as [|m|m]; [now left| |lia].
  destruct (e2 <=? emax - prec); [right; right; eauto|right; now left].
Qed.

Lemma binary_round_sign (sx : bool) (mx : positive) (ex : Z) :
  binary_round prec emax sx mx ex = S754_zero sx
  \/ binary_round prec emax sx mx ex = S754_infinity sx
  \/ exists m e, binary_round prec emax sx mx ex = S754_finite sx m e.
Proof.
  unfold binary_round. destruct (shl_align _ _ _) as [mz ez].
  apply binary_round_aux_sign. lia.
Qed.

Lemma binary_round_not_nan (sx : bool) (mx : positive) (ex : Z) :
  binary_round prec emax sx mx ex <> S754_nan.
Proof.
  destruct (binary_round_sign sx mx ex) as [E|[E|(m & e & E)]]; rewrite E;
    discriminate.
Qed.

Lemma binary_normalize_not_nan (m e : Z) (szero : bool) :
  binary_normalize prec emax m e szero <> S754_nan.
Proof.
  destruct m; simpl; [discriminate| |]; apply binary_round_not_nan.
Qed.

Lemma is_nan_Prim2SF (x : float) :
  Prim2SF x <> S754_nan -> PrimFloat.is_nan x = false.
Proof.
  unfold Prim2SF. destruct (PrimFloat.is_nan x); [intros H; now elim H|].
  reflexivity.
Qed.

(** A float made from a number is a number. *)
Lemma SF2Prim_not_nan (x : spec_float) :
  x <> S754_nan -> Prim2SF (SF2Prim x) <> S754_nan.
Proof.
  destruct x as [s|s| |s m e]; intros H.
  - destruct s; vm_compute; discriminate.
  - destruct s; vm_compute; discriminate.
  - now elim H.
  - unfold SF2Prim.
    assert (Prim2SF (Z.ldexp (of_uint63 (Uint63.of_Z (Zpos m))) e)
            <> S754_nan) as L.
    { rewrite Z_ldexp_spec, of_uint63_spec.
      pose proof (binary_normalize_not_nan
                    (Uint63.to_Z (Uint63.of_Z (Zpos m))) 0 false) as N.
      destruct (binary_normalize _ _ _ _ _) as [| | |s' m' e'];
        try discriminate; [now elim N|].
      apply binary_round_not_nan. }
    destruct s; [|exact L]. rewrite opp_spec.
    destruct (Prim2SF _); try discriminate. now elim L.
Qed.

Lemma add_not_nan (q : float) :
  Prim2SF q <> S754_nan -> Prim2SF (PrimFloat.add 5 q) <> S754_nan.
Proof.
  intros H. rewrite add_spec. unfold SF64add.
  replace (Prim2SF 5) with (S754_finite false 5629499534213120 (-50))
    by (vm_compute; reflexivity).
  destruct (Prim2SF q) as [s|s| |s m e]; try discriminate; [now elim H|].
  apply binary_normalize_not_nan.
Qed.

Lemma int_truediv_not_nan (a b : Z) (q : float) :
  Py.int_truediv a b = inr q -> Prim2SF q <> S754_nan.
Proof.
  unfold Py.int_truediv. destruct (b =? 0); [discriminate|].
  destruct (SFdiv prec emax (Py.Z2SF a) (Py.Z2SF b)) as [s|s| |s m e];
    try discriminate; intros [= <-].
  - apply (SF2Prim_not_nan (S754_zero s)). discriminate.
  - apply (SF2Prim_not_nan (S754_finite s m e)). discriminate.
Qed.

(** Rounding does not go below a float that the value is not below. *)
Lemma binary_round_aux_above (mx ex : Z) (mb : positive) (eb c : Z) :
  0 < mx -> bounded prec emax mb eb = true ->
  ex <= fexp (Zdigits2 mx + ex) -> c <= ex -> c <= eb ->
  Zpos mb * 2 ^ (eb - c) <= mx * 2 ^ (ex - c) ->
  binary_round_aux prec emax false mx ex loc_Exact = S754_infinity false
  \/ exists m e,
       binary_round_aux prec emax false mx ex loc_Exact = S754_finite false m e
       /\ eb <= e /\ (e = eb -> (mb <= m)%positive).
Proof.
  intros Hx Hb Hex Hcx Hcb Hv.
  destruct (bounded_canonical _ _ Hb) as [Cb Eb].
  unfold binary_round_aux, shr_fexp. cbn [shr_record_of_loc].
  set (e1 := fexp (Zdigits2 mx + ex)) in *.
  assert (eb <= e1) as He1.
  { rewrite <- Cb. apply fexp_mono.
    apply (digits_le (Zpos mb) mx eb ex c); lia. }
  assert (SpecFloat.emin prec emax <= eb) as Hmin
    by (rewrite <- Cb; unfold SpecFloat.fexp; lia).
  destruct (shr_m_e mx false false ex (e1 - ex) ltac:(lia)) as [M1 E1].
  destruct (shr (Build_shr_record mx false false) ex (e1 - ex))
    as [mrs1 e1'] eqn:S1.
  cbn [fst snd] in M1, E1. rewrite Z.max_r in M1, E1 by lia.
  replace (ex + (e1 - ex)) with e1 in E1 by lia. subst e1'.
  set (m1r := round_nearest_even (shr_m mrs1) (loc_of_shr_record mrs1)).
  pose proof (round_nearest_even_bounds (shr_m mrs1)
                                        (loc_of_shr_record mrs1)) as B.
  fold m1r in B.
  pose proof (pow2_pos (ex - c) ltac:(lia)) as Px.
  pose proof (pow2_pos (e1 - ex) ltac:(lia)) as Pn.
  assert (e1 = eb -> Zpos mb <= shr_m mrs1) as Hm1b.
  { intros E. rewrite M1. apply Z.div_le_lower_bound; [lia|].
    assert (2 ^ (eb - c) = 2 ^ (e1 - ex) * 2 ^ (ex - c)) as P.
    { rewrite <- pow2_split by lia. f_equal. lia. }
    rewrite P in Hv. nia. }
  assert (1 <= shr_m mrs1) as Hm1.
  { destruct (Z.eq_dec e1 eb) as [E|E]; [specialize (Hm1b E); lia|].
    rewrite M1. apply Z.div_le_lower_bound; [lia|]. rewrite Z.mul_1_r.
    destruct (Zdigits2_bounds mx Hx) as [L _].
    assert (e1 = Zdigits2 mx + ex - prec) as E1
      by (unfold e1, SpecFloat.fexp in *; lia).
    eapply Z.le_trans; [|exact L].
    apply Z.pow_le_mono_r; [lia|]. unfold prec in E1. lia. }
  assert (1 <= m1r) as Hr by lia.
  destruct (shr_m_e m1r false false e1 (fexp (Zdigits2 m1r + e1) - e1)
                    ltac:(lia)) as [M2 E2].
  destruct (shr (Build_shr_record m1r false false) e1
                (fexp (Zdigits2 m1r + e1) - e1)) as [mrs2 e2] eqn:S2.
  cbn [fst snd] in M2, E2.
  set (k := Z.max 0 (fexp (Zdigits2 m1r + e1) - e1)) in *.
  assert (0 <= k) as Hk by lia.
  pose proof (pow2_pos k Hk) as Pk.
  assert (1 <= shr_m mrs2) as Hm2.
  { rewrite M2. apply Z.div_le_lower_bound; [lia|]. rewrite Z.mul_1_r.
    destruct (Z.eq_dec k 0) as [K0|K0];
      [rewrite K0; change (2 ^ 0) with 1; lia|].
    destruct (Zdigits2_bounds m1r ltac:(lia)) as [L _].
    assert (k = Zdigits2 m1r - prec) as Ek
      by (unfold k, SpecFloat.fexp in *; lia).
    eapply Z.le_trans; [|exact L].
    apply Z.pow_le_mono_r; [lia|]. unfold prec in Ek. lia. }
  destruct (shr_m mrs2) as [|m|m] eqn:Em; [lia| |lia].
  destruct (e2 <=? emax - prec); [|now left].
  right. exists m, e2. split; [reflexivity|]. split; [lia|].
  intros Ee. assert (k = 0) as K0 by lia. assert (e1 = eb) as E by lia.
  rewrite K0 in M2. change (2 ^ 0) with 1 in M2. rewrite Z.div_1_r in M2.
  specialize (Hm1b E). lia.
Qed.

Lemma add_five_above (q : float) :
  Prim2SF q = S754_zero false \/ Prim2SF q = S754_infinity false
  \/ (exists m e, Prim2SF q = S754_finite false m e) ->
  PrimFloat.leb 5 (PrimFloat.add 5 q) = true.
Proof.
  intros H. rewrite leb_spec, add_spec. unfold SF64add.
  pose proof (Prim2SF_valid q) as V.
  replace (Prim2SF 5) with (S754_finite false 5629499534213120 (-50))
    by (vm_compute; reflexivity).
  destruct H as [->|[->|(m & e & E)]]; [reflexivity|reflexivity|].
  rewrite E in *. cbn [valid_binary] in V.
  unfold SFadd. cbn [cond_Zopp].
  set (ez := Z.min (-50) e).
  destruct (shl_align_spec 5629499534213120 (-50) ez) as [_ V5].
  destruct (shl_align_spec m e ez) as [_ Vq].
  rewrite Z.min_r in V5, Vq by lia.
  set (a := fst (shl_align 5629499534213120 (-50) ez)) in *.
  set (b := fst (shl_align m e ez)) in *.
  clearbody a b.
  change (Zpos a + Zpos b) with (Zpos (a + b)).
  unfold binary_normalize, binary_round.
  set (f := SpecFloat.fexp prec emax (Zpos (digits2_pos (a + b)) + ez)).
  destruct (shl_align_spec (a + b) ez f) as [Se Sm].
  destruct (shl_align (a + b) ez f) as [mz ez'] eqn:Sa.
  cbn [fst snd] in Se, Sm. rewrite <- Se in Sm.
  pose proof (pow2_pos (ez - ez') ltac:(lia)) as P1.
  pose proof (pow2_pos (-50 - ez) ltac:(lia)) as P2.
  assert (bounded prec emax 5629499534213120 (-50) = true) as B5
    by (vm_compute; reflexivity).
  destruct (binary_round_aux_above (Zpos mz) ez' 5629499534213120 (-50) ez')
    as [R|(m' & e' & R & He & Hm)]; try assumption; try lia.
  - assert (Zdigits2 (Zpos mz) + ez' = Zdigits2 (Zpos (a + b)) + ez) as Dg.
    { apply Z.le_antisymm;
        [apply (digits_le _ _ _ _ ez')|apply (digits_le _ _ _ _ ez')];
        try lia; rewrite Z.sub_diag; change (2 ^ 0) with 1; lia. }
    rewrite Dg. cbn [Zdigits2]. fold f. lia.
  - rewrite Z.sub_diag. change (2 ^ 0) with 1. rewrite Z.mul_1_r, Sm.
    replace (-50 - ez') with ((-50 - ez) + (ez - ez')) by lia.
    rewrite pow2_split by lia. nia.
  - rewrite R. reflexivity.
  - rewrite R. unfold SFleb, SFcompare.
    destruct (Z.compare_spec (-50) e') as [Ec|Ec|Ec]; [|reflexivity|lia].
    symmetry in Ec. specialize (Hm Ec).
    change (Pos.compare_cont Eq ?x ?y) with (x ?= y)%positive.
    destruct (Pos.compare_spec 5629499534213120 m') as [C|C|C];
      try reflexivity.
    exfalso. apply (proj1 (Pos.lt_nle _ _) C). exact Hm.
Qed.

(** The quotient of a non-negative [int] by 12 is not negative. *)
Lemma int_truediv_nonneg (term : Z) (q : float) :
  0 <= term -> Py.int_truediv term 12 = inr q ->
  Prim2SF q = S754_zero false \/ Prim2SF q = S754_infinity false
  \/ exists m e, Prim2SF q = S754_finite false m e.
Proof.
  intros Ht. unfold Py.int_truediv. cbn [Z.eqb].
  destruct term as [|p|p]; [intros [= <-]; now left| |lia].
  cbn [Py.Z2SF SFdiv xorb].
  unfold SFdiv_core_binary.
  set (e' := Z.min _ _). set (m' := match 0 - 0 - e' with
                                    | 0 => Zpos p
                                    | Zpos _ => Z.shiftl (Zpos p) (0 - 0 - e')
                                    | Zneg _ => 0
                                    end).
  assert (0 <= m') as Hm'.
  { unfold m'. destruct (0 - 0 - e'); try lia.
    apply Z.shiftl_nonneg. lia. }
  pose proof (Z.div_eucl_eq m' 12 ltac:(lia)) as D.
  pose proof (Z.mod_pos_bound m' 12 ltac:(lia)) as Bm.
  unfold Z.modulo in Bm.
  destruct (Z.div_eucl m' 12) as [mq r].
  assert (0 <= mq) as Hq by lia.
  destruct (binary_round_aux_sign false mq e' (new_location 12 r) Hq)
    as [R|[R|(m & e & R)]]; rewrite R; try discriminate; intros [= <-].
  - now left.
  - unfold SF2Prim. rewrite Z_ldexp_spec, of_uint63_spec.
    match goal with
    | |- context [binary_normalize prec emax ?z0 0 false] =>
        assert (0 <= z0) as Bz by exact (proj1 (Uint63.to_Z_bounded _));
        destruct z0 as [|z|z]
    end; [left; reflexivity| |lia].
    cbn [binary_normalize].
    destruct (binary_round_sign false z 0) as [N|[N|(m1 & e1 & N)]];
      rewrite N; cbn [SFldexp]; [now left|right; now left|].
    destruct (binary_round_sign false m1 (e1 + e)) as [L|[L|(m2 & e2 & L)]];
      rewrite L; [now left|right; now left|right; right; eauto].
Qed.

Lemma rate_in_range (term : Z) (q : float) :
  Py.int_truediv term 12 = inr q ->
  PrimFloat.is_nan (Py.min (PrimFloat.add 5 q) 15) = false
  /\ PrimFloat.leb (Py.min (PrimFloat.add 5 q) 15) 15 = true
  /\ (0 <= term ->
      PrimFloat.leb 5 (Py.min (PrimFloat.add 5 q) 15) = true).
Proof.
  intros H.
  pose proof (is_nan_Prim2SF _ (add_not_nan q (int_truediv_not_nan _ _ _ H)))
    as N.
  unfold Py.min. destruct (PrimFloat.ltb 15 (PrimFloat.add 5 q)) eqn:E.
  - repeat split.
  - split; [exact N|]. split.
    + rewrite leb_ltb by (exact N || reflexivity). now rewrite E.
    + intros Ht. apply add_five_above. now apply (int_truediv_nonneg term).
Qed.

(** X13: the interest rate of every loan in the table is a number (never
    NaN) that is at most 15.0, whatever term was typed, and at least 5.0
    when the term is not negative: [min(5.0 + term / 12, 15.0)] stays in
    that range for every term for which the division gives a float. *)
Theorem interest_rate_in_range (admin_hash : string) (t0 : Z)
    (cs : list command) :
  Forall (fun l => PrimFloat.is_nan (Loans.interest_rate l) = false
                   /\ PrimFloat.leb (Loans.interest_rate l) 15 = true
                   /\ (0 <= Loans.term l ->
                       PrimFloat.leb 5 (Loans.interest_rate l) = true))
         (Db.loans (db (run (__init__ None admin_hash t0) cs))).
Proof.
  apply Forall_forall. intros l Hl.
  destruct (invariant_reachable admin_hash t0 cs) as [_ Hok].
  destruct (Hok l Hl) as [_ _ _ _ _ _ (q & Hq & ->)].
  now apply (rate_in_range (Loans.term l)).
Qed.

(** ** The single connection *)

Lemma nth_error_snoc {A} (l : list A) (x : A) :
  nth_error (l ++ [x])%list (List.length l) = Some x.
Proof. rewrite nth_error_app2, Nat.sub_diag by apply Nat.le_refl. reflexivity. Qed.

Lemma store_snoc {A} (l : list A) (x y : A) :
  (firstn (List.length l) (l ++ [x]) ++ y :: skipn (S (List.length l))
                                                  (l ++ [x]))%list
  = (l ++ [y])%list.
Proof.
  rewrite skipn_all2 by (rewrite length_app; simpl; lia).
  rewrite firstn_app, Nat.sub_diag, firstn_all. simpl.
  now rewrite app_nil_r.
Qed.

Lemma get_cursor_last (h : list DatabaseConnection.t)
    (o : DatabaseConnection.t) (i : option nat) :
  DatabaseConnection.get_cursor
    (DatabaseConnection.mkWorld (h ++ [o])%list i) (List.length h)
  = match DatabaseConnection.connection o with
    | Some c => inr c
    | None => inl DatabaseConnection.AttributeError
    end.
Proof.
  unfold DatabaseConnection.get_cursor.
  cbn [DatabaseConnection.heap]. rewrite nth_error_snoc.
  now destruct o as [[c|]].
Qed.

Lemma close_last (h : list DatabaseConnection.t)
    (c : DatabaseConnection.psycopg2_connection) (i : option nat) :
  DatabaseConnection.close
    (DatabaseConnection.mkWorld
       (h ++ [DatabaseConnection.mk (Some c)])%list i) (List.length h)
  = (DatabaseConnection.mkWorld
       (h ++ [DatabaseConnection.mk
                (Some (DatabaseConnection.mkConnection
                         (DatabaseConnection.opened_with c)
                         (DatabaseConnection.autocommit c) true))])%list
       None,
     None).
Proof.
  unfold DatabaseConnection.close, DatabaseConnection.store.
  cbn [DatabaseConnection.heap]. rewrite nth_error_snoc.
  now rewrite store_snoc.
Qed.

Lemma get_cursor_before (h : list DatabaseConnection.t)
    (o : DatabaseConnection.t) (i : option nat) (self : nat) :
  (self < List.length h)%nat ->
  DatabaseConnection.get_cursor
    (DatabaseConnection.mkWorld (h ++ [o])%list i) self
  = DatabaseConnection.get_cursor (DatabaseConnection.mkWorld h i) self.
Proof.
  intros H. unfold DatabaseConnection.get_cursor.
  cbn [DatabaseConnection.heap]. now rewrite nth_error_app1.
Qed.

(** X14: while no object exists, a first [DatabaseConnection(...)] whose
    connection succeeds creates the object with autocommit on; every later
    call returns that same object without connecting, whatever parameters
    it is given.  [close] on it closes the connection and forgets the
    object, so that the next call connects anew, with its own parameters,
    and returns another object, while the old object keeps its closed
    connection. *)
Theorem connection_is_shared (w : DatabaseConnection.world)
    (p q : DatabaseConnection.params) (connected : bool) :
  DatabaseConnection._instance w = None ->
  exists self w1 w2 w3,
    DatabaseConnection.__new__ w p true = (w1, inr self)
    /\ DatabaseConnection.get_cursor w1 self
       = inr (DatabaseConnection.mkConnection p true false)
    /\ DatabaseConnection.__new__ w1 q connected = (w1, inr self)
    /\ DatabaseConnection.close w1 self = (w2, None)
    /\ DatabaseConnection.get_cursor w2 self
       = inr (DatabaseConnection.mkConnection p true true)
    /\ DatabaseConnection.__new__ w2 q true = (w3, inr (S self))
    /\ DatabaseConnection.get_cursor w3 (S self)
       = inr (DatabaseConnection.mkConnection q true false)
    /\ DatabaseConnection.get_cursor w3 self
       = inr (DatabaseConnection.mkConnection p true true).
Proof.
  destruct w as [h i]. simpl. intros ->.
  set (o1 := DatabaseConnection.mk
               (Some (DatabaseConnection.mkConnection p true false))).
  set (o1' := DatabaseConnection.mk
                (Some (DatabaseConnection.mkConnection p true true))).
  set (o2 := DatabaseConnection.mk
               (Some (DatabaseConnection.mkConnection q true false))).
  assert (List.length (h ++ [o1'])%list = S (List.length h)) as L
    by (rewrite length_app; simpl; lia).
  exists (List.length h),
    (DatabaseConnection.mkWorld (h ++ [o1])%list (Some (List.length h))),
    (DatabaseConnection.mkWorld (h ++ [o1'])%list None),
    (DatabaseConnection.mkWorld ((h ++ [o1']) ++ [o2])%list
                                (Some (S (List.length h)))).
  split; [reflexivity|]. split; [now rewrite get_cursor_last|].
  split; [reflexivity|]. split; [apply close_last|].
  split; [now rewrite get_cursor_last|].
  split; [unfold DatabaseConnection.__new__; simpl; now rewrite L|].
  split; [now rewrite <- L, get_cursor_last|].
  rewrite get_cursor_before by lia. now rewrite get_cursor_last.
Qed.

Lemma connection_is_shared_witness :
  DatabaseConnection._instance DatabaseConnection.start = None
  /\ exists self w1 w2 w3,
       DatabaseConnection.__new__ DatabaseConnection.start
         (DatabaseConnection.mkParams "loan_system" "u" "pw" "localhost"
                                      "5432") true
       = (w1, inr self)
       /\ DatabaseConnection.get_cursor w1 self
          = inr (DatabaseConnection.mkConnection
                   (DatabaseConnection.mkParams "loan_system" "u" "pw"
                                                "localhost" "5432")
                   true false)
       /\ DatabaseConnection.__new__ w1
            (DatabaseConnection.mkParams "postgres" "u" "pw" "localhost"
                                         "5432") false
          = (w1, inr self)
       /\ DatabaseConnection.close w1 self = (w2, None)
       /\ DatabaseConnection.get_cursor w2 self
          = inr (DatabaseConnection.mkConnection
                   (DatabaseConnection.mkParams "loan_system" "u" "pw"
                                                "localhost" "5432")
                   true true)
       /\ DatabaseConnection.__new__ w2
            (DatabaseConnection.mkParams "postgres" "u" "pw" "localhost"
                                         "5432") true
          = (w3, inr (S self))
       /\ DatabaseConnection.get_cursor w3 (S self)
          = inr (DatabaseConnection.mkConnection
                   (DatabaseConnection.mkParams "postgres" "u" "pw"
                                                "localhost" "5432")
                   true false)
       /\ DatabaseConnection.get_cursor w3 self
          = inr (DatabaseConnection.mkConnection
                   (DatabaseConnection.mkParams "loan_system" "u" "pw"
                                                "localhost" "5432")
                   true true).
Proof.
  exact (conj eq_refl
              (connection_is_shared DatabaseConnection.start
                 (DatabaseConnection.mkParams "loan_system" "u" "pw"
                                              "localhost" "5432")
                 (DatabaseConnection.mkParams "postgres" "u" "pw" "localhost"
                                              "5432")
                 false eq_refl)).
Defined.

(** X15: while no object exists, a first [DatabaseConnection(...)] whose
    connection is refused raises the error but keeps the half-made object in
    [_instance]: every later call, even one the server would accept,
    returns that object without connecting, and [get_cursor] and [close] on
    it raise [AttributeError], so the object is never replaced. *)
Theorem refused_connection_is_kept (w : DatabaseConnection.world)
    (p q : DatabaseConnection.params) (connected : bool) :
  DatabaseConnection._instance w = None ->
  exists self w1,
    DatabaseConnection.__new__ w p false
    = (w1, inl DatabaseConnection.OperationalError)
    /\ DatabaseConnection.__new__ w1 q connected = (w1, inr self)
    /\ DatabaseConnection.get_cursor w1 self
       = inl DatabaseConnection.AttributeError
    /\ DatabaseConnection.close w1 self
       = (w1, Some DatabaseConnection.AttributeError).
Proof.
  destruct w as [h i]. simpl. intros ->.
  exists (List.length h),
    (DatabaseConnection.mkWorld (h ++ [DatabaseConnection.mk None])%list
                                (Some (List.length h))).
  split; [reflexivity|]. split; [reflexivity|].
  split; [now rewrite get_cursor_last|].
  unfold DatabaseConnection.close. cbn [DatabaseConnection.heap].
  now rewrite nth_error_snoc.
Qed.

Lemma refused_connection_is_kept_witness :
  DatabaseConnection._instance DatabaseConnection.start = None
  /\ exists self w1,
       DatabaseConnection.__new__ DatabaseConnection.start
         (DatabaseConnection.mkParams "loan_system" "u" "bad" "localhost"
                                      "5432") false
       = (w1, inl DatabaseConnection.OperationalError)
       /\ DatabaseConnection.__new__ w1
            (DatabaseConnection.mkParams "loan_system" "u" "pw" "localhost"
                                         "5432") true
          = (w1, inr self)
       /\ DatabaseConnection.get_cursor w1 self
          = inl DatabaseConnection.AttributeError
       /\ DatabaseConnection.close w1 self
          = (w1, Some DatabaseConnection.AttributeError).
Proof.
  exact (conj eq_refl
              (refused_connection_is_kept DatabaseConnection.start
                 (DatabaseConnection.mkParams "loan_system" "u" "bad"
                                              "localhost" "5432")
                 (DatabaseConnection.mkParams "loan_system" "u" "pw"
                                              "localhost" "5432")
                 true eq_refl)).
Defined.
